(** * LCD1602 over I2C (PCF8574 expander), 4-bit mode: driver model

    A shallow embedding of the driver in package [lcd]
    (functions [New], [validateInputs], [init], [SetCursor], [Print],
    [Write], [UploadCustomChar], the backlight and display-control
    switches, [send], [writeByte], [busWrite]).

    - A Go [byte] is a [Z] in [0, 256); shifts and additions that can leave
      that range are wrapped explicitly ([shl8], [to_byte]).
    - Go's [int] parameters ([cols], [rows], [row], [col]) are [Z]; the
      code only compares them and converts [col] with [byte(col)].
    - The I2C device is a record holding the bytes it has accepted, the
      number of [Write] calls made and an oracle saying which calls fail.
    - A [[8]byte] glyph is a list of bytes; a Go string is a [string],
      walked rune by rune as [range] does.
    - A method [func (lcd *LCD) f(...) error] is a function
      [LCD -> Result unit * LCD]: the handle is returned in both outcomes,
      because assignments made before a failing bus write persist.
    - [time.Sleep] calls are delays only and are left out. *)

From Stdlib Require Import String Ascii ZArith Bool Lia List.
Import ListNotations.
Open Scope Z_scope.

(** ** Bytes *)

Definition to_byte (z : Z) : Z := z mod 256.

(** [v << n] on a [byte]. *)
Definition shl8 (v n : Z) : Z := to_byte (Z.shiftl v n).

(** [^v] on a [byte]. *)
Definition not8 (v : Z) : Z := Z.lxor v 255.

(** [a + b] on bytes. *)
Definition add8 (a b : Z) : Z := to_byte (a + b).

Definition is_byte (v : Z) : Prop := 0 <= v < 256.

Definition all_bytes : list Z := map Z.of_nat (seq 0 256).

(** ** Constants *)

Definition DefaultDevice : string := "/dev/i2c-1".
Definition DefaultAddress : Z := 0x27.

Definition lcdRegisterCommand : Z := 0x0.
Definition lcdRegisterData : Z := 0x1.
Definition lcdWriteMode : Z := 0x0.
Definition lcdEnableBit : Z := 0x4.
Definition lcdBacklightOn : Z := 0x08.
Definition lcdBacklightOff : Z := 0x00.

Definition lcdClear : Z := 0x01.
Definition lcdHome : Z := 0x02.

Definition lcdEntryModeSet : Z := 0x04.
Definition lcdEntryModeIDIncr : Z := 0x02.
Definition lcdEntryModeIDDecr : Z := 0x00.
Definition lcdEntryModeShiftEnable : Z := 0x01.
Definition lcdEntryModeShiftDisable : Z := 0x00.

Definition lcdFuncSet : Z := 0x20.
Definition lcdDL4Bit : Z := 0x00.
Definition lcdNOneLine : Z := 0x00.
Definition lcdNTwoLine : Z := 0x08.
Definition lcdF5x8Dot : Z := 0x00.
Definition lcdF5x10Dot : Z := 0x04.

Definition lcdDisplayCtrl : Z := 0x08.
Definition lcdDisplayOn : Z := 0x04.
Definition lcdDisplayOff : Z := 0x00.
Definition lcdDisplayCursorOn : Z := 0x02.
Definition lcdDisplayCursorOff : Z := 0x00.
Definition lcdDisplayBlinkOn : Z := 0x01.
Definition lcdDisplayBlinkOff : Z := 0x00.

Definition lcdCGRAMAddrBase : Z := 0x40.
Definition lcdDDRAMAddrBase : Z := 0x80.

Definition Font5x8 : Z := lcdF5x8Dot.
Definition Font5x10 : Z := lcdF5x10Dot.

(** ** Errors

    The driver builds its errors with [fmt.Errorf]; one constructor stands
    for each message.  [ErrInvalidInputs] is the wrapping done by [New]
    (["invalid inputs: %w"]). *)

Inductive error : Type :=
| ErrInvalidCols (cols : Z)
| ErrInvalidRows (rows : Z)
| ErrInvalidFont (font : Z)
| ErrFont5x10Rows (rows : Z)
| ErrInvalidInputs (cause : error)
| ErrInvalidCol (col : Z)
| ErrInvalidRow (row : Z)
| ErrI2CWrite
| ErrI2COpen.

Inductive error_kind : Type := InvalidArgument | IOError.

Fixpoint kind_of (e : error) : error_kind :=
  match e with
  | ErrInvalidCols _ | ErrInvalidRows _ | ErrInvalidFont _
  | ErrFont5x10Rows _ | ErrInvalidCol _ | ErrInvalidRow _ => InvalidArgument
  | ErrInvalidInputs cause => kind_of cause
  | ErrI2CWrite | ErrI2COpen => IOError
  end.

Inductive Result (A : Type) : Type :=
| Ok (a : A)
| Err (e : error).
Arguments Ok {A} a.
Arguments Err {A} e.

(** ** The I2C device *)

Record Device : Type := mkDevice {
  wire : list Z;          (* bytes accepted by the bus, oldest first *)
  attempts : nat;         (* number of Write calls made so far *)
  fault : nat -> bool     (* fault n = true: the n-th Write call fails *)
}.

Definition Healthy (d : Device) : Prop := forall n, fault d n = false.

(** [i2c.Device.Write([]byte{data})]. *)
Definition i2c_Write (data : Z) (d : Device) : bool * Device :=
  if fault d (attempts d)
  then (false, mkDevice (wire d) (S (attempts d)) (fault d))
  else (true, mkDevice (wire d ++ [data]) (S (attempts d)) (fault d)).

(** ** The handle *)

Record LCD : Type := mkLCD {
  i2c : Device;
  backlight : Z;
  cols : Z;
  rows : Z;
  font : Z;
  displayState : Z
}.

Definition set_i2c (d : Device) (lcd : LCD) : LCD :=
  mkLCD d (backlight lcd) (cols lcd) (rows lcd) (font lcd) (displayState lcd).

Definition set_backlight (b : Z) (lcd : LCD) : LCD :=
  mkLCD (i2c lcd) b (cols lcd) (rows lcd) (font lcd) (displayState lcd).

Definition set_displayState (s : Z) (lcd : LCD) : LCD :=
  mkLCD (i2c lcd) (backlight lcd) (cols lcd) (rows lcd) (font lcd) s.

(** ** Methods on the handle: state plus error *)

Definition M (A : Type) : Type := LCD -> Result A * LCD.

Definition ret {A} (a : A) : M A := fun lcd => (Ok a, lcd).

Definition bind {A B} (m : M A) (k : A -> M B) : M B :=
  fun lcd =>
    match m lcd with
    | (Ok a, lcd') => k a lcd'
    | (Err e, lcd') => (Err e, lcd')
    end.

Declare Scope lcd_scope.
Delimit Scope lcd_scope with lcd.
Notation "m1 ;; m2" := (bind m1 (fun _ => m2))
  (at level 61, right associativity) : lcd_scope.
Open Scope lcd_scope.

(** [busWrite] writes a single byte to the I2C bus. *)
Definition busWrite (data : Z) : M unit :=
  fun lcd =>
    match i2c_Write data (i2c lcd) with
    | (true, d) => (Ok tt, set_i2c d lcd)
    | (false, d) => (Err ErrI2CWrite, set_i2c d lcd)
    end.

(** [writeByte] puts one nibble on P4-P7 with the technical bits on P0-P3,
    first with the enable bit set, then with it cleared. *)
Definition writeByte (value rs : Z) : M unit :=
  fun lcd =>
    let data := Z.lor (Z.lor (Z.lor rs lcdWriteMode) lcdEnableBit) (backlight lcd) in
    let data := Z.lor data (shl8 value 4) in
    (busWrite data ;;
     busWrite (Z.land data (not8 lcdEnableBit))) lcd.

(** [send] sends a byte in 4-bit mode: high nibble, then low nibble. *)
Definition send (value rs : Z) : M unit :=
  let high := Z.shiftr value 4 in
  writeByte high rs ;;
  let low := Z.land value 0x0F in
  writeByte low rs.

Definition sendCommand (command : Z) : M unit := send command lcdRegisterCommand.

Definition sendData (data : Z) : M unit := send data lcdRegisterData.

Definition Clear : M unit := sendCommand lcdClear.

Definition Home : M unit := sendCommand lcdHome.

(** [init]: the 4-bit initialisation of the controller. *)
Definition init : M unit :=
  sendCommand 0x03 ;;
  sendCommand 0x03 ;;
  sendCommand 0x03 ;;
  sendCommand 0x02 ;;
  (fun lcd =>
     let lineMode := if rows lcd >? 1 then lcdNTwoLine else lcdNOneLine in
     sendCommand (Z.lor (Z.lor (Z.lor lcdFuncSet lcdDL4Bit) lineMode) (font lcd)) lcd) ;;
  (fun lcd => sendCommand (Z.lor lcdDisplayCtrl (displayState lcd)) lcd) ;;
  sendCommand (Z.lor (Z.lor lcdEntryModeSet lcdEntryModeIDIncr) lcdEntryModeShiftDisable) ;;
  Clear.

(** [validateInputs] checks the parameters of [New]. *)
Definition validateInputs (cols rows font : Z) : option error :=
  if negb (cols =? 16) && negb (cols =? 20) then Some (ErrInvalidCols cols)
  else if negb (rows =? 1) && negb (rows =? 2) && negb (rows =? 4)
  then Some (ErrInvalidRows rows)
  else if negb (font =? Font5x8) && negb (font =? Font5x10)
  then Some (ErrInvalidFont font)
  else if (font =? Font5x10) && negb (rows =? 1) then Some (ErrFont5x10Rows rows)
  else None.

(** The machine the driver runs on: [host bus address] is [None] when
    [i2c.Open] fails for that bus and address, and otherwise gives the
    fault oracle of the device that is opened. *)
Definition Host : Type := string -> Z -> option (nat -> bool).

(** What a call did on the transport. *)
Inductive event : Type :=
| EvOpen (bus : string) (address : Z)
| EvWrite (data : Z).

Definition i2c_Open (host : Host) (bus : string) (address : Z) : Result Device :=
  match host bus address with
  | Some f => Ok (mkDevice [] 0%nat f)
  | None => Err ErrI2COpen
  end.

(** [New] returns the handle or the error, and (second component) the
    transport operations the call performed, in order. *)
Definition New (host : Host) (bus : string) (address : Z)
    (cols rows font : Z) (isBacklightOn : bool) : Result LCD * list event :=
  match validateInputs cols rows font with
  | Some err => (Err (ErrInvalidInputs err), [])
  | None =>
    match i2c_Open host bus address with
    | Err err => (Err err, [EvOpen bus address])
    | Ok i2cDevice =>
      let lcd := mkLCD i2cDevice 0 cols rows font
                   (Z.lor (Z.lor lcdDisplayOn lcdDisplayCursorOff) lcdDisplayBlinkOff) in
      match init lcd with
      | (Err err, lcd') => (Err err, EvOpen bus address :: map EvWrite (wire (i2c lcd')))
      | (Ok _, lcd') =>
        let lcd'' := if isBacklightOn then set_backlight lcdBacklightOn lcd' else lcd' in
        (Ok lcd'', EvOpen bus address :: map EvWrite (wire (i2c lcd')))
      end
    end
  end.

(** [UploadCustomChar]; the [[8]byte] pattern is the list [char]. *)
Fixpoint sendAll (bs : list Z) : M unit :=
  match bs with
  | [] => ret tt
  | b :: tl => sendData b ;; sendAll tl
  end.

Definition UploadCustomChar (location : Z) (char : list Z) : M unit :=
  let location := Z.land location 0x7 in
  let data := Z.lor lcdCGRAMAddrBase (shl8 location 3) in
  sendCommand data ;;
  sendAll char.

(** [SetCursor]. *)
Definition SetCursor (row col : Z) : M unit :=
  fun lcd =>
    if (col <? 0) || (col >=? cols lcd) then (Err (ErrInvalidCol col), lcd)
    else
      let base :=
        match row with
        | 0 => Some lcdDDRAMAddrBase
        | 1 => Some (lcdDDRAMAddrBase + 0x40)
        | 2 => Some (lcdDDRAMAddrBase + 0x14)
        | 3 => Some (lcdDDRAMAddrBase + 0x54)
        | _ => None
        end in
      match base with
      | None => (Err (ErrInvalidRow row), lcd)
      | Some addr => sendCommand (add8 addr (to_byte col)) lcd
      end.

(** ** Strings

    A Go string is a sequence of bytes; [for _, char := range text] walks
    it rune by rune, decoding UTF-8.  A byte that does not start a
    well-formed encoding yields U+FFFD and advances by one byte. *)

Definition bytes_of_string (s : string) : list Z :=
  map (fun a => Z.of_N (N_of_ascii a)) (list_ascii_of_string s).

Definition RuneError : Z := 0xFFFD.

Definition between (lo hi b : Z) : bool := (lo <=? b) && (b <=? hi).

Definition cont (b : Z) : Z := Z.land b 0x3F.

(** The rune at the head of [bs] and the number of bytes it takes. *)
Definition decodeRune (bs : list Z) : Z * nat :=
  match bs with
  | [] => (RuneError, 0%nat)
  | b0 :: rest =>
    if b0 <? 0x80 then (b0, 1%nat)
    else if between 0xC2 0xDF b0 then
      match rest with
      | b1 :: _ =>
        if between 0x80 0xBF b1
        then (Z.lor (Z.shiftl (Z.land b0 0x1F) 6) (cont b1), 2%nat)
        else (RuneError, 1%nat)
      | _ => (RuneError, 1%nat)
      end
    else if between 0xE0 0xEF b0 then
      let lo := if b0 =? 0xE0 then 0xA0 else 0x80 in
      let hi := if b0 =? 0xED then 0x9F else 0xBF in
      match rest with
      | b1 :: b2 :: _ =>
        if between lo hi b1 && between 0x80 0xBF b2
        then (Z.lor (Z.lor (Z.shiftl (Z.land b0 0x0F) 12) (Z.shiftl (cont b1) 6))
                    (cont b2), 3%nat)
        else (RuneError, 1%nat)
      | _ => (RuneError, 1%nat)
      end
    else if between 0xF0 0xF4 b0 then
      let lo := if b0 =? 0xF0 then 0x90 else 0x80 in
      let hi := if b0 =? 0xF4 then 0x8F else 0xBF in
      match rest with
      | b1 :: b2 :: b3 :: _ =>
        if between lo hi b1 && between 0x80 0xBF b2 && between 0x80 0xBF b3
        then (Z.lor (Z.lor (Z.lor (Z.shiftl (Z.land b0 0x07) 18)
                                  (Z.shiftl (cont b1) 12))
                           (Z.shiftl (cont b2) 6))
                    (cont b3), 4%nat)
        else (RuneError, 1%nat)
      | _ => (RuneError, 1%nat)
      end
    else (RuneError, 1%nat)
  end.

(** The runes of a byte sequence; [skip] bytes belong to the rune just
    decoded and are passed over. *)
Fixpoint runes_from (skip : nat) (bs : list Z) : list Z :=
  match bs with
  | [] => []
  | _ :: tl =>
    match skip with
    | S k => runes_from k tl
    | O => let (r, w) := decodeRune bs in r :: runes_from (Nat.pred w) tl
    end
  end.

Definition runes (text : string) : list Z := runes_from 0 (bytes_of_string text).

(** [Write]: each rune is converted with [byte(char)] and sent as data. *)
Definition Write (text : string) : M unit :=
  sendAll (map to_byte (runes text)).

Definition Print (text : string) (row col : Z) : M unit :=
  SetCursor row col ;;
  Write text.

Definition WriteRAW (raw : Z) : M unit := sendData raw.

Definition PrintRAW (raw row col : Z) : M unit :=
  SetCursor row col ;;
  WriteRAW raw.

(** ** Backlight *)

Definition EnableBacklight : M unit :=
  fun lcd =>
    let lcd := set_backlight lcdBacklightOn lcd in
    busWrite (backlight lcd) lcd.

Definition DisableBacklight : M unit :=
  fun lcd =>
    let lcd := set_backlight lcdBacklightOff lcd in
    busWrite (backlight lcd) lcd.

Definition ToggleBacklight : M unit :=
  fun lcd =>
    if backlight lcd =? lcdBacklightOff then EnableBacklight lcd
    else DisableBacklight lcd.

(** ** Display control *)

Definition DisplayOn : M unit :=
  fun lcd =>
    let lcd := set_displayState (Z.lor (displayState lcd) lcdDisplayOn) lcd in
    sendCommand (Z.lor lcdDisplayCtrl (displayState lcd)) lcd.

Definition DisplayOff : M unit :=
  fun lcd =>
    let lcd := set_displayState (Z.land (displayState lcd) (not8 lcdDisplayOn)) lcd in
    sendCommand (Z.lor lcdDisplayCtrl (displayState lcd)) lcd.

Definition CursorOn : M unit :=
  fun lcd =>
    let lcd := set_displayState (Z.lor (displayState lcd) lcdDisplayCursorOn) lcd in
    sendCommand (Z.lor lcdDisplayCtrl (displayState lcd)) lcd.

Definition CursorOff : M unit :=
  fun lcd =>
    let lcd := set_displayState (Z.land (displayState lcd) (not8 lcdDisplayCursorOn)) lcd in
    sendCommand (Z.lor lcdDisplayCtrl (displayState lcd)) lcd.

Definition BlinkOn : M unit :=
  fun lcd =>
    let lcd := set_displayState (Z.lor (displayState lcd) lcdDisplayBlinkOn) lcd in
    sendCommand (Z.lor lcdDisplayCtrl (displayState lcd)) lcd.

Definition BlinkOff : M unit :=
  fun lcd =>
    let lcd := set_displayState (Z.land (displayState lcd) (not8 lcdDisplayBlinkOn)) lcd in
    sendCommand (Z.lor lcdDisplayCtrl (displayState lcd)) lcd.

Definition ToggleDisplay : M unit :=
  fun lcd =>
    if Z.land (displayState lcd) lcdDisplayOn =? lcdDisplayOn
    then DisplayOff lcd else DisplayOn lcd.

Definition ToggleCursor : M unit :=
  fun lcd =>
    if Z.land (displayState lcd) lcdDisplayCursorOn =? lcdDisplayCursorOn
    then CursorOff lcd else CursorOn lcd.

Definition ToggleBlink : M unit :=
  fun lcd =>
    if Z.land (displayState lcd) lcdDisplayBlinkOn =? lcdDisplayBlinkOn
    then BlinkOff lcd else BlinkOn lcd.

(** ** Package [ctulhu]: the walking glyph

    [walkingCthulhu] keeps a pointer to the handle it draws on; here the
    handle is passed in and handed back beside the walker.  [log.Fatal]
    ends the process: that outcome is [Fatal].  Go's [int] is 32 or 64
    bits wide by platform, so the one addition on it takes the width. *)

Definition wrap_int (bits z : Z) : Z :=
  (z + 2 ^ (bits - 1)) mod 2 ^ bits - 2 ^ (bits - 1).

Inductive outcome (A : Type) : Type :=
| Returned (a : A)
| Failed (e : error)
| Fatal (e : error).
Arguments Returned {A} a.
Arguments Failed {A} e.
Arguments Fatal {A} e.

Module ctulhu.

Definition cthulhu : list Z :=
  [0x0E; 0x1F; 0x15; 0x1F; 0x0E; 0x1F; 0x15; 0x15].

Record walkingCthulhu : Type := mkWalking {
  direction : Z;
  turnBackCol : Z;
  turnForwardCol : Z;
  curCol : Z;
  curRow : Z;
  kthulhu : list Z;
  charLocation : Z
}.

Definition New (startRow startCol turnBackCol turnForwardCol direction : Z)
    (charLocation : Z) (lcd : LCD) : outcome walkingCthulhu * LCD :=
  let direct := if direction <? 0 then -1 else 1 in
  match UploadCustomChar charLocation cthulhu lcd with
  | (Err err, lcd1) => (Failed err, lcd1)
  | (Ok _, lcd1) =>
    match PrintRAW charLocation startRow startCol lcd1 with
    | (Err err, lcd2) => (Fatal err, lcd2)
    | (Ok _, lcd2) =>
      (Returned (mkWalking direct turnBackCol turnForwardCol startCol startRow
                           cthulhu charLocation), lcd2)
    end
  end.

(** The errors of [Print] and [PrintRAW] are dropped. *)
Definition MakeStep (bits : Z) (wk : walkingCthulhu) (lcd : LCD)
    : walkingCthulhu * LCD :=
  let direction' :=
    match direction wk with
    | 1 => if curCol wk =? turnBackCol wk then -1 else direction wk
    | -1 => if curCol wk =? turnForwardCol wk then 1 else direction wk
    | _ => direction wk
    end in
  let lcd1 := snd (Print " " (curRow wk) (curCol wk) lcd) in
  let curCol' := wrap_int bits (curCol wk + direction') in
  let lcd2 := snd (PrintRAW (charLocation wk) (curRow wk) curCol' lcd1) in
  (mkWalking direction' (turnBackCol wk) (turnForwardCol wk) curCol'
             (curRow wk) (kthulhu wk) (charLocation wk), lcd2).

End ctulhu.

(** ** The earlier driver, [pkg/lcd/lcd.go]

    Its handle has no font and no display state; those two fields of
    [LCD] are unused here.  [send], [writeByte], [busWrite], [Clear] and
    the constants are the same as above. *)

Module legacy.

Definition init : M unit :=
  busWrite 0x30 ;;
  busWrite 0x30 ;;
  busWrite 0x30 ;;
  busWrite 0x20 ;;
  sendCommand (Z.lor (Z.lor (Z.lor lcdFuncSet lcdDL4Bit) lcdNTwoLine) lcdF5x8Dot) ;;
  sendCommand (Z.lor (Z.lor (Z.lor lcdDisplayCtrl lcdDisplayOn) lcdDisplayCursorOff)
                     lcdDisplayBlinkOff) ;;
  sendCommand (Z.lor (Z.lor lcdEntryModeSet lcdEntryModeIDIncr) lcdEntryModeShiftDisable) ;;
  Clear.

Definition New (host : Host) (bus : string) (address : Z)
    (cols rows : Z) (isBacklightOn : bool) : Result LCD * list event :=
  match i2c_Open host bus address with
  | Err err => (Err err, [EvOpen bus address])
  | Ok i2cDevice =>
    let lcd := mkLCD i2cDevice 0 cols rows 0 0 in
    match init lcd with
    | (Err err, lcd') => (Err err, EvOpen bus address :: map EvWrite (wire (i2c lcd')))
    | (Ok _, lcd') =>
      let lcd'' := if isBacklightOn then set_backlight lcdBacklightOn lcd' else lcd' in
      (Ok lcd'', EvOpen bus address :: map EvWrite (wire (i2c lcd')))
    end
  end.

Definition SetCursor (row col : Z) : M unit :=
  fun lcd =>
    if col >? cols lcd then (Err (ErrInvalidCol col), lcd)
    else
      let base :=
        match row with
        | 0 => Some lcdDDRAMAddrBase
        | 1 => Some (lcdDDRAMAddrBase + 0x40)
        | 2 => Some (lcdDDRAMAddrBase + 0x14)
        | 3 => Some (lcdDDRAMAddrBase + 0x54)
        | _ => None
        end in
      match base with
      | None => (Err (ErrInvalidRow row), lcd)
      | Some addr => sendCommand (add8 addr (to_byte col)) lcd
      end.

End legacy.

(** * Vocabulary of the statements *)

(** ** Bus logs *)

(** The handle after the bus has accepted [bs], one [Write] call each. *)
Definition push_bytes (bs : list Z) (lcd : LCD) : LCD :=
  set_i2c (mkDevice (wire (i2c lcd) ++ bs)
                    (length bs + attempts (i2c lcd))
                    (fault (i2c lcd))) lcd.

(** The two transport bytes [writeByte] produces for a nibble. *)
Definition nibble_bytes (bl rs value : Z) : list Z :=
  let data := Z.lor (Z.lor (Z.lor (Z.lor rs lcdWriteMode) lcdEnableBit) bl)
                    (shl8 value 4) in
  [data; Z.land data (not8 lcdEnableBit)].

(** The four transport bytes [send] produces for a byte. *)
Definition send_bytes (bl rs value : Z) : list Z :=
  nibble_bytes bl rs (Z.shiftr value 4) ++ nibble_bytes bl rs (Z.land value 0x0F).

(** [m], started on [lcd], succeeds and has the bus accept exactly [bs]. *)
Definition emits (m : M unit) (lcd : LCD) (bs : list Z) : Prop :=
  m lcd = (Ok tt, push_bytes bs lcd).

(** Equality test on byte lists, for checks run over all 256 bytes. *)
Definition eqb_list (l1 l2 : list Z) : bool :=
  if list_eq_dec Z.eq_dec l1 l2 then true else false.

(** The register-select flag: command or data. *)
Definition valid_rs (rs : Z) : Prop :=
  rs = lcdRegisterCommand \/ rs = lcdRegisterData.

(** The two values the driver stores in [lcd.backlight]. *)
Definition valid_backlight (bl : Z) : Prop :=
  bl = lcdBacklightOff \/ bl = lcdBacklightOn.

(** ** Framing *)

(** A transport byte as the specification composes it:
    [backlightBit | registerSelectBit | enableBit | (nibble << 4)]. *)
Definition transport_byte (bl rs en nibble : Z) : Z :=
  Z.lor (Z.lor (Z.lor bl rs) en) (Z.shiftl nibble 4).

(** High-set, high-clear, low-set, low-clear. *)
Definition frame (bl rs value : Z) : list Z :=
  let hi := Z.shiftr value 4 in
  let lo := Z.land value 0x0F in
  [transport_byte bl rs lcdEnableBit hi; transport_byte bl rs 0 hi;
   transport_byte bl rs lcdEnableBit lo; transport_byte bl rs 0 lo].

(** The facts about one frame, as a test: it is what [send] writes; the
    enable bit is set, clear, set, clear; the data pins carry the high
    nibble twice and the low nibble twice; the register-select and
    backlight bits are [rs] and [bl] throughout. *)
Definition frame_check (bl rs value : Z) : bool :=
  let ws := frame bl rs value in
  eqb_list (send_bytes bl rs value) ws
  && eqb_list (map (fun w => Z.land w lcdEnableBit) ws)
              [lcdEnableBit; 0; lcdEnableBit; 0]
  && eqb_list (map (fun w => Z.shiftr w 4) ws)
              [Z.shiftr value 4; Z.shiftr value 4;
               Z.land value 0x0F; Z.land value 0x0F]
  && eqb_list (map (fun w => Z.land w lcdRegisterData) ws) [rs; rs; rs; rs]
  && eqb_list (map (fun w => Z.land w lcdBacklightOn) ws) [bl; bl; bl; bl].

(** ** Sample inputs *)

(** A device that accepts every write, and a 16x2 handle on it with the
    backlight on. *)
Definition healthy_device : Device := mkDevice [] 0%nat (fun _ => false).

Definition sample_lcd : LCD :=
  mkLCD healthy_device lcdBacklightOn 16 2 Font5x8 lcdDisplayOn.

(** ** Any bus, faulty or not *)

(** Everything but the bus log is the same in both handles. *)
Definition same_fields (a b : LCD) : Prop :=
  backlight a = backlight b /\ cols a = cols b /\ rows a = rows b
  /\ font a = font b /\ displayState a = displayState b
  /\ fault (i2c a) = fault (i2c b).

(** [m] only talks to the bus: it leaves the fields alone, returns [nil]
    or the bus write error, and every byte it gets written satisfies [P]. *)
Definition io_step (P : Z -> Prop) (m : M unit) (lcd : LCD) : Prop :=
  same_fields lcd (snd (m lcd))
  /\ (fst (m lcd) = Ok tt \/ fst (m lcd) = Err ErrI2CWrite)
  /\ exists bs, wire (i2c (snd (m lcd))) = wire (i2c lcd) ++ bs /\ Forall P bs.

(** ** Construction *)

(** The valid combinations: 16 or 20 columns, 1, 2 or 4 rows, one of the
    two fonts, and the 5x10 font only on one row. *)
Definition valid_config (cols rows font : Z) : Prop :=
  (cols = 16 \/ cols = 20)
  /\ (rows = 1 \/ rows = 2 \/ rows = 4)
  /\ (font = Font5x8 \/ font = Font5x10)
  /\ (font = Font5x10 -> rows = 1).

(** [FUNCTION_SET | 4BIT | (rows>1 ? TWO_LINE : ONE_LINE) | font]. *)
Definition function_set_command (rows font : Z) : Z :=
  Z.lor (Z.lor (Z.lor lcdFuncSet lcdDL4Bit)
               (if rows >? 1 then lcdNTwoLine else lcdNOneLine)) font.

(** Display on, cursor off, blink off. *)
Definition display_control_command : Z :=
  Z.lor lcdDisplayCtrl
        (Z.lor (Z.lor lcdDisplayOn lcdDisplayCursorOff) lcdDisplayBlinkOff).

(** Increment, no shift. *)
Definition entry_mode_command : Z :=
  Z.lor (Z.lor lcdEntryModeSet lcdEntryModeIDIncr) lcdEntryModeShiftDisable.

(** The command bytes [init] hands to [sendCommand], in order. *)
Definition init_commands (rows font : Z) : list Z :=
  [0x03; 0x03; 0x03; 0x02; function_set_command rows font;
   display_control_command; entry_mode_command; lcdClear].

(** A single nibble transfer with backlight off and register-select low:
    enable set, then enable cleared. *)
Definition nibble_frame (nibble : Z) : list Z :=
  [transport_byte 0 lcdRegisterCommand lcdEnableBit nibble;
   transport_byte 0 lcdRegisterCommand 0 nibble].

(** The sequence as the specification words it: three [0x3] nibble
    writes, one [0x2] nibble write, then the four full commands. *)
Definition documented_init_bytes (rows font : Z) : list Z :=
  nibble_frame 0x3 ++ nibble_frame 0x3 ++ nibble_frame 0x3 ++ nibble_frame 0x2
  ++ frame 0 lcdRegisterCommand (function_set_command rows font)
  ++ frame 0 lcdRegisterCommand display_control_command
  ++ frame 0 lcdRegisterCommand entry_mode_command
  ++ frame 0 lcdRegisterCommand lcdClear.

(** The sequence the code produces: every one of the eight commands goes
    through [send], high nibble then low nibble. *)
Definition init_bytes (rows font : Z) : list Z :=
  concat (map (frame 0 lcdRegisterCommand) (init_commands rows font)).

(** A host on which every device opens and accepts every write. *)
Definition healthy_host : Host := fun _ _ => Some (fun _ => false).

(** The handle [New] builds before it runs [init]. *)
Definition fresh_lcd (f : nat -> bool) (cols rows font : Z) : LCD :=
  mkLCD (mkDevice [] 0%nat f) 0 cols rows font
        (Z.lor (Z.lor lcdDisplayOn lcdDisplayCursorOff) lcdDisplayBlinkOff).

(** ** Cursor, custom characters, display control *)

(** The handle [New] returns for 16 columns, 2 rows, the 5x8 font and the
    backlight on, on [healthy_host]. *)
Definition constructed_lcd : LCD :=
  set_backlight lcdBacklightOn
    (push_bytes (init_bytes 2 Font5x8) (fresh_lcd (fun _ => false) 16 2 Font5x8)).

(** Row 0 -> 0x80, row 1 -> 0xC0, row 2 -> 0x94, row 3 -> 0xD4. *)
Definition base_address (row : Z) : Z :=
  match row with
  | 0 => 0x80
  | 1 => 0xC0
  | 2 => 0x94
  | 3 => 0xD4
  | _ => 0
  end.

(** The CGRAM address command of a location, as a test: the wrapped shift
    of the code equals the plain shift, and the command is a byte. *)
Definition cgram_check (location : Z) : bool :=
  let a := Z.lor lcdCGRAMAddrBase (shl8 (Z.land location 0x7) 3) in
  (a =? Z.lor 0x40 (Z.shiftl (Z.land location 0x7) 3))
  && (0 <=? a) && (a <? 256).

(** The glyph of the demo. *)
Definition cthulhu : list Z := [0x0E; 0x1F; 0x15; 0x1F; 0x0E; 0x1F; 0x15; 0x15].

(** Display on, cursor on, blink on. *)
Definition control_bits : list Z :=
  [lcdDisplayOn; lcdDisplayCursorOn; lcdDisplayBlinkOn].

(** What one switch must do: [op] gives the bit [bit] of the display state
    the value [on], leaves the other control bits alone, leaves backlight
    and geometry alone, and sends the display-control command built from
    the whole new state, as one command. *)
Definition switch_spec (op : M unit) (bit : Z) (on : bool) : Prop :=
  forall lcd : LCD,
    is_byte (displayState lcd) ->
    let lcd' := snd (op lcd) in
    let ds' := displayState lcd' in
    Z.land ds' bit = (if on then bit else 0)
    /\ (forall other, In other control_bits -> other <> bit ->
          Z.land ds' other = Z.land (displayState lcd) other)
    /\ is_byte ds'
    /\ backlight lcd' = backlight lcd
    /\ cols lcd' = cols lcd /\ rows lcd' = rows lcd /\ font lcd' = font lcd
    /\ (Healthy (i2c lcd) -> valid_backlight (backlight lcd) ->
        op lcd
        = (Ok tt, push_bytes (frame (backlight lcd) lcdRegisterCommand
                                    (Z.lor lcdDisplayCtrl ds'))
                             (set_displayState ds' lcd))).

(** The display state after [|= bit] or [&= ^bit]. *)
Definition switched (bit : Z) (on : bool) (ds : Z) : Z :=
  if on then Z.lor ds bit else Z.land ds (not8 bit).

(** The facts about one switch of one state byte, as a test. *)
Definition switch_check (bit : Z) (on : bool) (ds : Z) : bool :=
  let ds' := switched bit on ds in
  (Z.land ds' bit =? (if on then bit else 0))
  && forallb (fun other => (other =? bit) || (Z.land ds' other =? Z.land ds other))
             control_bits
  && (0 <=? ds') && (ds' <? 256)
  && (0 <=? Z.lor lcdDisplayCtrl ds') && (Z.lor lcdDisplayCtrl ds' <? 256).

(** The byte [w] shows [bl] on the backlight pin P3. *)
Definition backlight_pin (bl : Z) : Z -> Prop :=
  fun w => Z.land w lcdBacklightOn = bl.

(** ** Handles the driver can produce *)

(** The exported methods, with their arguments. *)
Inductive call : Type :=
| CallClear
| CallHome
| CallUploadCustomChar (location : Z) (char : list Z)
| CallSetCursor (row col : Z)
| CallPrint (text : string) (row col : Z)
| CallPrintRAW (raw row col : Z)
| CallWrite (text : string)
| CallWriteRAW (raw : Z)
| CallEnableBacklight
| CallDisableBacklight
| CallToggleBacklight
| CallDisplayOn
| CallDisplayOff
| CallToggleDisplay
| CallCursorOn
| CallCursorOff
| CallToggleCursor
| CallBlinkOn
| CallBlinkOff
| CallToggleBlink.

Definition run (c : call) : M unit :=
  match c with
  | CallClear => Clear
  | CallHome => Home
  | CallUploadCustomChar location char => UploadCustomChar location char
  | CallSetCursor row col => SetCursor row col
  | CallPrint text row col => Print text row col
  | CallPrintRAW raw row col => PrintRAW raw row col
  | CallWrite text => Write text
  | CallWriteRAW raw => WriteRAW raw
  | CallEnableBacklight => EnableBacklight
  | CallDisableBacklight => DisableBacklight
  | CallToggleBacklight => ToggleBacklight
  | CallDisplayOn => DisplayOn
  | CallDisplayOff => DisplayOff
  | CallToggleDisplay => ToggleDisplay
  | CallCursorOn => CursorOn
  | CallCursorOff => CursorOff
  | CallToggleCursor => ToggleCursor
  | CallBlinkOn => BlinkOn
  | CallBlinkOff => BlinkOff
  | CallToggleBlink => ToggleBlink
  end.

(** A handle returned by [New], after any number of calls, whatever they
    returned. *)
Inductive reachable : LCD -> Prop :=
| reach_New host bus address c r fo on lcd :
    fst (New host bus address c r fo on) = Ok lcd -> reachable lcd
| reach_call lcd c :
    reachable lcd -> reachable (snd (run c lcd)).

(** [m] leaves the stored backlight byte alone. *)
Definition keeps_backlight (m : M unit) : Prop :=
  forall lcd, backlight (snd (m lcd)) = backlight lcd.

(** ** Bus failures, text, toggles, the walking glyph, the earlier driver *)

(** One [busWrite] per byte, in order, as long as they succeed. *)
Fixpoint busWriteAll (bs : list Z) : M unit :=
  match bs with
  | [] => ret tt
  | b :: tl => busWrite b ;; busWriteAll tl
  end.

(** How many bytes of [bs] the bus takes before it first refuses one,
    when the next call is call number [n]. *)
Fixpoint accepted_count (f : nat -> bool) (n : nat) (bs : list Z) : nat :=
  match bs with
  | [] => 0%nat
  | _ :: tl => if f n then 0%nat else S (accepted_count f (S n) tl)
  end.

(** [m] tries to write [bs] and stops at the first refusal: the log grows
    by the bytes before it, one more call is made (the refused one), the
    result is the bus write error; with no refusal all of [bs] is logged
    and the result is [nil].  The other fields are untouched. *)
Definition stops_at_first_refusal (m : M unit) (lcd : LCD) (bs : list Z) : Prop :=
  let d := i2c lcd in
  let k := accepted_count (fault d) (attempts d) bs in
  same_fields lcd (snd (m lcd))
  /\ wire (i2c (snd (m lcd))) = wire d ++ firstn k bs
  /\ (forall i, (i < k)%nat -> fault d (attempts d + i) = false)
  /\ ((k = length bs /\ fst (m lcd) = Ok tt
       /\ attempts (i2c (snd (m lcd))) = (attempts d + k)%nat)
      \/ ((k < length bs)%nat /\ fault d (attempts d + k) = true
          /\ fst (m lcd) = Err ErrI2CWrite
          /\ attempts (i2c (snd (m lcd))) = S (attempts d + k))).

(** A device that refuses its third write (call number 2) and a handle on
    it. *)
Definition third_write_fails : nat -> bool := fun n => Nat.eqb n 2.

Definition flaky_lcd : LCD :=
  mkLCD (mkDevice [] 0%nat third_write_fails) lcdBacklightOn 16 2 Font5x8 lcdDisplayOn.

(** Every byte of the string is below 0x80. *)
Definition ascii_text (s : string) : Prop :=
  Forall (fun b => 0 <= b < 0x80) (bytes_of_string s).

(** The string made of the single byte [b]. *)
Definition one_byte_string (b : Z) : string :=
  String (ascii_of_N (Z.to_N b)) EmptyString.

Definition lone_byte_check (b : Z) : bool :=
  if b <? 0x80
  then eqb_list (map to_byte (runes (one_byte_string b))) [b]
  else eqb_list (map to_byte (runes (one_byte_string b))) [0xFD].

(** A host whose device refuses its third write. *)
Definition flaky_host : Host := fun _ _ => Some third_write_fails.

(** What one toggle must do: [op] flips the bit [bit] of the display
    state and nothing else, sends the display-control command for the new
    state, and done twice gives the state back. *)
Definition toggle_spec (op : M unit) (bit : Z) : Prop :=
  forall lcd : LCD,
    is_byte (displayState lcd) ->
    let lcd1 := snd (op lcd) in
    let lcd2 := snd (op lcd1) in
    displayState lcd1 = Z.lxor (displayState lcd) bit
    /\ displayState lcd2 = displayState lcd
    /\ backlight lcd2 = backlight lcd
    /\ cols lcd2 = cols lcd /\ rows lcd2 = rows lcd /\ font lcd2 = font lcd
    /\ (Healthy (i2c lcd) -> valid_backlight (backlight lcd) ->
        op lcd
        = (Ok tt, push_bytes (frame (backlight lcd) lcdRegisterCommand
                                (Z.lor lcdDisplayCtrl (Z.lxor (displayState lcd) bit)))
                             (set_displayState (Z.lxor (displayState lcd) bit) lcd))).

(** The display state after a toggle of [bit]. *)
Definition toggled (bit ds : Z) : Z :=
  if Z.land ds bit =? bit then Z.land ds (not8 bit) else Z.lor ds bit.

Definition toggle_check (bit ds : Z) : bool :=
  (toggled bit ds =? Z.lxor ds bit)
  && (toggled bit (toggled bit ds) =? ds)
  && (0 <=? toggled bit ds) && (toggled bit ds <? 256)
  && (0 <=? Z.lor lcdDisplayCtrl (toggled bit ds))
  && (Z.lor lcdDisplayCtrl (toggled bit ds) <? 256).

(** The eight accepted triples (columns, rows, font). *)
Definition accepted_configs : list (Z * Z * Z) :=
  [(16, 1, Font5x8); (16, 1, Font5x10); (16, 2, Font5x8); (16, 4, Font5x8);
   (20, 1, Font5x8); (20, 1, Font5x10); (20, 2, Font5x8); (20, 4, Font5x8)].

(** [m] changes nothing in the handle but the bus log. *)
Definition keeps_fields (m : M unit) : Prop :=
  forall lcd, same_fields lcd (snd (m lcd)).

(** A valid geometry and font, a backlight byte of 0x00 or 0x08, and a
    display state within the three control bits. *)
Definition handle_ok (lcd : LCD) : Prop :=
  valid_config (cols lcd) (rows lcd) (font lcd)
  /\ valid_backlight (backlight lcd)
  /\ 0 <= displayState lcd < 8.

(** [z] fits a signed integer of [bits] bits. *)
Definition int_range (bits z : Z) : Prop :=
  - 2 ^ (bits - 1) <= z < 2 ^ (bits - 1).

(** [n] calls of [MakeStep]. *)
Fixpoint steps (bits : Z) (n : nat) (wk : ctulhu.walkingCthulhu) (lcd : LCD)
    : ctulhu.walkingCthulhu * LCD :=
  match n with
  | O => (wk, lcd)
  | S n' => let (wk', lcd') := ctulhu.MakeStep bits wk lcd in steps bits n' wk' lcd'
  end.

(** The walker is between its two turning columns and faces one way or
    the other. *)
Definition walking (wk : ctulhu.walkingCthulhu) : Prop :=
  (ctulhu.direction wk = 1 \/ ctulhu.direction wk = -1)
  /\ ctulhu.turnForwardCol wk <= ctulhu.curCol wk <= ctulhu.turnBackCol wk.

(** Two walkers differ in direction and column at most. *)
Definition same_walk (a b : ctulhu.walkingCthulhu) : Prop :=
  ctulhu.turnBackCol a = ctulhu.turnBackCol b
  /\ ctulhu.turnForwardCol a = ctulhu.turnForwardCol b
  /\ ctulhu.curRow a = ctulhu.curRow b
  /\ ctulhu.kthulhu a = ctulhu.kthulhu b
  /\ ctulhu.charLocation a = ctulhu.charLocation b.

(** Direction and column after one step, without the display. *)
Definition walk_step (tb tf : Z) (s : Z * Z) : Z * Z :=
  let (dir, cur) := s in
  let dir' :=
    match dir with
    | 1 => if cur =? tb then -1 else dir
    | -1 => if cur =? tf then 1 else dir
    | _ => dir
    end in
  (dir', cur + dir').

Fixpoint walk (tb tf : Z) (n : nat) (s : Z * Z) : Z * Z :=
  match n with
  | O => s
  | S n' => walk tb tf n' (walk_step tb tf s)
  end.

(** Place [p] of the round trip of length [2 * (tb - tf)]: up from
    [tf + 1] to [tb], then down from [tb - 1] to [tf]. *)
Definition state_of (tb tf p : Z) : Z * Z :=
  if p =? 0 then (-1, tf)
  else if p <=? tb - tf then (1, tf + p)
  else (-1, tf + 2 * (tb - tf) - p).

(** The walker of the demo: row 1, columns 0 to 5, glyph in location 0. *)
Definition demo_walker : ctulhu.walkingCthulhu :=
  ctulhu.mkWalking 1 5 0 0 1 ctulhu.cthulhu 0.

(** The bytes the earlier [init] writes: four raw bytes, then four framed
    commands. *)
Definition legacy_init_bytes : list Z :=
  [0x30; 0x30; 0x30; 0x20]
  ++ frame 0 lcdRegisterCommand 0x28 ++ frame 0 lcdRegisterCommand 0x0C
  ++ frame 0 lcdRegisterCommand 0x06 ++ frame 0 lcdRegisterCommand 0x01.

(** * Properties *)

(** ** What a healthy bus records *)

Lemma push_bytes_nil lcd : push_bytes [] lcd = lcd.
Proof.
  destruct lcd as [[w a f] bl c r fo ds]. unfold push_bytes, set_i2c. simpl.
  now rewrite app_nil_r.
Qed.

Lemma push_bytes_app b1 b2 lcd :
  push_bytes b2 (push_bytes b1 lcd) = push_bytes (b1 ++ b2) lcd.
Proof.
  unfold push_bytes, set_i2c. simpl.
  rewrite <- app_assoc, length_app.
  replace (length b2 + (length b1 + attempts (i2c lcd)))%nat
    with (length b1 + length b2 + attempts (i2c lcd))%nat by lia.
  reflexivity.
Qed.

Lemma push_bytes_healthy bs lcd :
  Healthy (i2c lcd) -> Healthy (i2c (push_bytes bs lcd)).
Proof. intros H n. apply H. Qed.

Lemma emits_bind m1 m2 lcd b1 b2 :
  emits m1 lcd b1 ->
  emits m2 (push_bytes b1 lcd) b2 ->
  emits (m1 ;; m2) lcd (b1 ++ b2).
Proof.
  unfold emits, bind. intros -> ->. now rewrite push_bytes_app.
Qed.

Lemma busWrite_emits data lcd :
  Healthy (i2c lcd) -> emits (busWrite data) lcd [data].
Proof.
  intros H. unfold emits, busWrite, i2c_Write. now rewrite H.
Qed.

Lemma writeByte_emits value rs lcd :
  Healthy (i2c lcd) ->
  emits (writeByte value rs) lcd (nibble_bytes (backlight lcd) rs value).
Proof.
  intros H. unfold emits, writeByte, nibble_bytes. cbv zeta.
  apply (emits_bind (busWrite _) (busWrite _) lcd [_] [_]).
  - now apply busWrite_emits.
  - apply busWrite_emits. now apply push_bytes_healthy.
Qed.

Lemma send_emits value rs lcd :
  Healthy (i2c lcd) ->
  emits (send value rs) lcd (send_bytes (backlight lcd) rs value).
Proof.
  intros H. unfold send, send_bytes.
  apply emits_bind.
  - now apply writeByte_emits.
  - apply (writeByte_emits _ _ (push_bytes _ lcd)). now apply push_bytes_healthy.
Qed.

Lemma sendAll_emits bs : forall lcd,
  Healthy (i2c lcd) ->
  emits (sendAll bs) lcd (concat (map (send_bytes (backlight lcd) lcdRegisterData) bs)).
Proof.
  induction bs as [|b tl IH]; intros lcd H; cbn [sendAll map concat].
  - unfold emits, ret. now rewrite push_bytes_nil.
  - apply emits_bind.
    + now apply send_emits.
    + apply (IH (push_bytes _ lcd)). now apply push_bytes_healthy.
Qed.

(** ** Checking a property of every byte by enumeration *)

Lemma all_bytes_complete v : is_byte v -> In v all_bytes.
Proof.
  intros [H0 H1]. unfold all_bytes.
  rewrite <- (Z2Nat.id v) by assumption.
  apply in_map, in_seq. lia.
Qed.

Lemma byte_cases (P : Z -> bool) :
  forallb P all_bytes = true -> forall v, is_byte v -> P v = true.
Proof.
  intros H v Hv. rewrite forallb_forall in H. apply H, all_bytes_complete, Hv.
Qed.

Lemma eqb_list_true l1 l2 : eqb_list l1 l2 = true -> l1 = l2.
Proof. unfold eqb_list. now destruct (list_eq_dec Z.eq_dec l1 l2). Qed.

(** ** Framing of one byte ([send], [writeByte]) *)

Lemma frame_check_all bl rs value :
  valid_backlight bl -> valid_rs rs -> is_byte value ->
  frame_check bl rs value = true.
Proof.
  intros [-> | ->] [-> | ->];
    apply (byte_cases (frame_check _ _)); vm_compute; reflexivity.
Qed.

Lemma send_bytes_frame bl rs value :
  valid_backlight bl -> valid_rs rs -> is_byte value ->
  send_bytes bl rs value = frame bl rs value.
Proof.
  intros Hbl Hrs Hv. pose proof (frame_check_all _ _ _ Hbl Hrs Hv) as H.
  unfold frame_check in H. repeat (apply andb_prop in H; destruct H as [H ?]).
  now apply eqb_list_true.
Qed.

(** C1: on a bus that accepts its writes, [send value rs] succeeds and has
    exactly four bytes written, in the order high-set, high-clear, low-set,
    low-clear.  Each is [backlight | rs | enable | (nibble << 4)]; the
    enable bit is set on the first and third and clear on the second and
    fourth; the data pins carry [value >> 4] twice, then [value & 0x0F]
    twice; the register-select and backlight bits are those of [rs] and of
    the handle in all four.  Nothing else in the handle changes. *)
Theorem send_four_writes (lcd : LCD) (value rs : Z) :
  Healthy (i2c lcd) -> valid_backlight (backlight lcd) ->
  valid_rs rs -> is_byte value ->
  let bl := backlight lcd in
  let hi := Z.shiftr value 4 in
  let lo := Z.land value 0x0F in
  let ws := [transport_byte bl rs lcdEnableBit hi; transport_byte bl rs 0 hi;
             transport_byte bl rs lcdEnableBit lo; transport_byte bl rs 0 lo] in
  send value rs lcd = (Ok tt, push_bytes ws lcd)
  /\ wire (i2c (snd (send value rs lcd))) = wire (i2c lcd) ++ ws
  /\ attempts (i2c (snd (send value rs lcd))) = (4 + attempts (i2c lcd))%nat
  /\ map (fun w => Z.land w lcdEnableBit) ws = [lcdEnableBit; 0; lcdEnableBit; 0]
  /\ map (fun w => Z.shiftr w 4) ws = [hi; hi; lo; lo]
  /\ map (fun w => Z.land w lcdRegisterData) ws = [rs; rs; rs; rs]
  /\ map (fun w => Z.land w lcdBacklightOn) ws = [bl; bl; bl; bl].
Proof.
  intros Hh Hbl Hrs Hv bl hi lo ws.
  pose proof (send_emits value rs lcd Hh) as Hs. unfold emits in Hs.
  rewrite (send_bytes_frame _ _ _ Hbl Hrs Hv) in Hs.
  change (frame (backlight lcd) rs value) with ws in Hs.
  pose proof (frame_check_all _ _ _ Hbl Hrs Hv) as H.
  unfold frame_check in H.
  change (frame (backlight lcd) rs value) with ws in H.
  repeat (apply andb_prop in H; destruct H as [H ?]).
  rewrite Hs. repeat split; try (now apply eqb_list_true).
Qed.

Lemma send_four_writes_witness :
  send 0x48 lcdRegisterData sample_lcd
  = (Ok tt, push_bytes [0x4D; 0x49; 0x8D; 0x89] sample_lcd).
Proof.
  apply (send_four_writes sample_lcd 0x48 lcdRegisterData).
  - intro n; reflexivity.
  - right; reflexivity.
  - right; reflexivity.
  - unfold is_byte; lia.
Defined.

(** ** What holds on any bus, faulty or not *)

Lemma same_fields_refl a : same_fields a a.
Proof. unfold same_fields; repeat split; reflexivity. Qed.

Lemma same_fields_trans a b c :
  same_fields a b -> same_fields b c -> same_fields a c.
Proof.
  unfold same_fields. intros (?&?&?&?&?&?) (?&?&?&?&?&?).
  repeat split; congruence.
Qed.

Lemma io_ret P lcd : io_step P (ret tt) lcd.
Proof.
  unfold io_step, ret; simpl. split; [apply same_fields_refl|].
  split; [now left|]. exists []. now rewrite app_nil_r.
Qed.

Lemma io_busWrite (P : Z -> Prop) data lcd :
  P data -> io_step P (busWrite data) lcd.
Proof.
  intros HP. unfold io_step, busWrite, i2c_Write.
  destruct (fault (i2c lcd) (attempts (i2c lcd))); simpl.
  - split; [unfold same_fields; simpl; tauto|]. split; [now right|].
    exists []. now rewrite app_nil_r.
  - split; [unfold same_fields; simpl; tauto|]. split; [now left|].
    exists [data]. split; [reflexivity|]. now constructor.
Qed.

Lemma io_bind P m1 m2 lcd :
  io_step P m1 lcd ->
  (forall lcd', same_fields lcd lcd' -> io_step P m2 lcd') ->
  io_step P (m1 ;; m2) lcd.
Proof.
  unfold io_step at 1 3, bind. intros (Hf & Hr & bs1 & Hw & HP) H2.
  destruct (m1 lcd) as [[[]|e] lcd1]; simpl in *.
  - destruct (H2 lcd1 Hf) as (Hf2 & Hr2 & bs2 & Hw2 & HP2).
    split; [eapply same_fields_trans; eassumption|]. split; [assumption|].
    exists (bs1 ++ bs2). rewrite Hw2, Hw, app_assoc. split; [reflexivity|].
    apply Forall_app; now split.
  - split; [assumption|]. split; [assumption|]. now exists bs1.
Qed.

Lemma io_writeByte P value rs lcd :
  Forall P (nibble_bytes (backlight lcd) rs value) ->
  io_step P (writeByte value rs) lcd.
Proof.
  unfold nibble_bytes. cbv zeta. intros H.
  inversion H as [|? ? H1 H']; subst. inversion H' as [|? ? H2 ?]; subst.
  unfold io_step, writeByte. cbv zeta.
  apply (io_bind P (busWrite _) (busWrite _)).
  - now apply io_busWrite.
  - intros lcd' _. now apply io_busWrite.
Qed.

Lemma io_send P value rs lcd :
  Forall P (send_bytes (backlight lcd) rs value) ->
  io_step P (send value rs) lcd.
Proof.
  unfold send_bytes. intros H. apply Forall_app in H as [H1 H2].
  unfold send. apply io_bind.
  - now apply io_writeByte.
  - intros lcd' (Hb & _). apply io_writeByte. now rewrite <- Hb.
Qed.

Lemma io_sendAll P bs : forall lcd,
  Forall (fun b => Forall P (send_bytes (backlight lcd) lcdRegisterData b)) bs ->
  io_step P (sendAll bs) lcd.
Proof.
  induction bs as [|b tl IH]; intros lcd H; cbn [sendAll].
  - apply io_ret.
  - inversion H as [|? ? Hb Htl]; subst. apply io_bind.
    + now apply io_send.
    + intros lcd' Hsf. apply IH. destruct Hsf as (Hbl & _). now rewrite <- Hbl.
Qed.

Lemma Forall_trivial (l : list Z) : Forall (fun _ => True) l.
Proof. induction l; now constructor. Qed.

(** With the handle's backlight byte valid, every byte [send] gets written
    shows exactly that byte on the backlight pin. *)
Lemma send_bytes_backlight bl rs value :
  valid_backlight bl -> valid_rs rs -> is_byte value ->
  Forall (fun w => Z.land w lcdBacklightOn = bl) (send_bytes bl rs value).
Proof.
  intros Hbl Hrs Hv. rewrite (send_bytes_frame _ _ _ Hbl Hrs Hv).
  pose proof (frame_check_all _ _ _ Hbl Hrs Hv) as H.
  unfold frame_check in H. repeat (apply andb_prop in H; destruct H as [H ?]).
  match goal with E : eqb_list (map _ _) [bl; bl; bl; bl] = true |- _ =>
    apply eqb_list_true in E; unfold frame in *; cbv zeta in *;
    injection E as E1 E2 E3 E4 end.
  repeat constructor; assumption.
Qed.

(** ** Construction parameters *)

Lemma validateInputs_None_iff cols rows font :
  validateInputs cols rows font = None <-> valid_config cols rows font.
Proof.
  unfold validateInputs, valid_config, Font5x8, Font5x10, lcdF5x8Dot, lcdF5x10Dot.
  destruct (Z.eqb_spec cols 16), (Z.eqb_spec cols 20),
           (Z.eqb_spec rows 1), (Z.eqb_spec rows 2), (Z.eqb_spec rows 4),
           (Z.eqb_spec font 0), (Z.eqb_spec font 4); simpl;
    split; try discriminate; try (intros; repeat split; auto; lia);
    intros (Hc & Hr & Hf & Hfr); exfalso; lia.
Qed.

Lemma validateInputs_kind cols rows font e :
  validateInputs cols rows font = Some e -> kind_of e = InvalidArgument.
Proof.
  unfold validateInputs.
  repeat match goal with |- context [if ?c then _ else _] => destruct c end;
    intros H; inversion H; reflexivity.
Qed.

(** ** The initialisation sequence *)

Lemma send_emits_at bl value rs lcd :
  Healthy (i2c lcd) -> backlight lcd = bl ->
  emits (send value rs) lcd (send_bytes bl rs value).
Proof. intros H <-. now apply send_emits. Qed.

Ltac send_step :=
  unfold emits; cbv beta;
  apply send_emits_at; [ intro; simpl; auto | reflexivity ].

Lemma init_emits lcd :
  Healthy (i2c lcd) ->
  emits init lcd
    (concat (map (send_bytes (backlight lcd) lcdRegisterCommand)
       [0x03; 0x03; 0x03; 0x02; function_set_command (rows lcd) (font lcd);
        Z.lor lcdDisplayCtrl (displayState lcd); entry_mode_command; lcdClear])).
Proof.
  intros H. unfold init, Clear, sendCommand. cbn [map concat].
  repeat (apply emits_bind; [ send_step | ]).
  rewrite app_nil_r. send_step.
Qed.

Lemma function_set_byte r fo :
  r = 1 \/ r = 2 \/ r = 4 -> fo = Font5x8 \/ fo = Font5x10 ->
  is_byte (function_set_command r fo).
Proof.
  intros Hr Hf. unfold is_byte.
  destruct Hr as [-> | [-> | ->]], Hf as [-> | ->]; vm_compute; split; congruence.
Qed.

Lemma New_healthy host bus address c r fo isBacklightOn f :
  valid_config c r fo ->
  host bus address = Some f -> (forall n, f n = false) ->
  New host bus address c r fo isBacklightOn
  = (Ok ((if isBacklightOn then set_backlight lcdBacklightOn else fun l => l)
           (push_bytes (init_bytes r fo) (fresh_lcd f c r fo))),
     EvOpen bus address :: map EvWrite (init_bytes r fo)).
Proof.
  intros Hv Hh Hf. pose proof Hv as Hv'.
  apply validateInputs_None_iff in Hv'. unfold New, i2c_Open. rewrite Hv', Hh.
  fold (fresh_lcd f c r fo).
  pose proof (init_emits (fresh_lcd f c r fo) Hf) as Hi.
  unfold emits in Hi. rewrite Hi.
  assert (Hb : concat (map (send_bytes (backlight (fresh_lcd f c r fo))
                                       lcdRegisterCommand)
                 [0x03; 0x03; 0x03; 0x02;
                  function_set_command (rows (fresh_lcd f c r fo))
                                       (font (fresh_lcd f c r fo));
                  Z.lor lcdDisplayCtrl (displayState (fresh_lcd f c r fo));
                  entry_mode_command; lcdClear])
               = init_bytes r fo).
  { destruct Hv as (_ & Hr & Hfo & _).
    destruct Hr as [-> | [-> | ->]], Hfo as [-> | ->]; vm_compute; reflexivity. }
  rewrite Hb. cbn [snd i2c push_bytes set_i2c wire fresh_lcd app].
  destruct isBacklightOn; reflexivity.
Qed.

(** C2 (amended): for every valid geometry and font, on a host whose device
    opens and accepts its writes, construction opens the device and then
    has exactly these bytes written, with the backlight bit clear: the
    frames of the eight commands 0x03, 0x03, 0x03, 0x02, function set
    [FUNCTION_SET | 4BIT | (rows>1 ? TWO_LINE : ONE_LINE) | font], display
    control (display on, cursor off, blink off), entry mode set (increment,
    no shift) and clear display, in this order and with nothing in between.
    Each 0x03 and the 0x02 is a full command byte, so its frame is a 0x0
    nibble transfer followed by the 0x3 (0x2) nibble transfer. *)
Theorem New_init_sequence (host : Host) (bus : string) (address : Z)
    (cols rows font : Z) (isBacklightOn : bool) (f : nat -> bool) :
  valid_config cols rows font ->
  host bus address = Some f -> (forall n, f n = false) ->
  (exists lcd,
     New host bus address cols rows font isBacklightOn
     = (Ok lcd, EvOpen bus address :: map EvWrite (init_bytes rows font))
     /\ wire (i2c lcd) = init_bytes rows font)
  /\ init_bytes rows font
     = frame 0 lcdRegisterCommand 0x03 ++ frame 0 lcdRegisterCommand 0x03
       ++ frame 0 lcdRegisterCommand 0x03 ++ frame 0 lcdRegisterCommand 0x02
       ++ frame 0 lcdRegisterCommand (function_set_command rows font)
       ++ frame 0 lcdRegisterCommand display_control_command
       ++ frame 0 lcdRegisterCommand entry_mode_command
       ++ frame 0 lcdRegisterCommand lcdClear
  /\ frame 0 lcdRegisterCommand 0x03 = nibble_frame 0x0 ++ nibble_frame 0x3
  /\ frame 0 lcdRegisterCommand 0x02 = nibble_frame 0x0 ++ nibble_frame 0x2.
Proof.
  intros Hv Hh Hf. split; [|split; [|split]].
  - eexists. split; [now apply (New_healthy _ _ _ _ _ _ _ f)|].
    destruct isBacklightOn; reflexivity.
  - unfold init_bytes, init_commands. cbn [map concat]. now rewrite app_nil_r.
  - reflexivity.
  - reflexivity.
Qed.

Lemma New_init_sequence_witness :
  (exists lcd,
     New healthy_host DefaultDevice DefaultAddress 16 2 Font5x8 true
     = (Ok lcd, EvOpen DefaultDevice DefaultAddress
                :: map EvWrite (init_bytes 2 Font5x8))
     /\ wire (i2c lcd) = init_bytes 2 Font5x8)
  /\ init_bytes 2 Font5x8
     = [0x04; 0x00; 0x34; 0x30; 0x04; 0x00; 0x34; 0x30;
        0x04; 0x00; 0x34; 0x30; 0x04; 0x00; 0x24; 0x20;
        0x24; 0x20; 0x84; 0x80; 0x04; 0x00; 0xC4; 0xC0;
        0x04; 0x00; 0x64; 0x60; 0x04; 0x00; 0x14; 0x10].
Proof.
  split; [|reflexivity].
  apply (New_init_sequence healthy_host DefaultDevice DefaultAddress
           16 2 Font5x8 true (fun _ => false)).
  - unfold valid_config. repeat split; auto. discriminate.
  - reflexivity.
  - reflexivity.
Defined.

(** C2 as stated fails: on a 16x2 display with the 5x8 font the bytes
    written are not three single 0x3 nibble transfers and one 0x2 nibble
    transfer followed by the four commands; each of the first four steps
    also carries a 0x0 nibble transfer. *)
Lemma New_init_sequence_not_documented :
  snd (New healthy_host DefaultDevice DefaultAddress 16 2 Font5x8 true)
  <> EvOpen DefaultDevice DefaultAddress
     :: map EvWrite (documented_init_bytes 2 Font5x8).
Proof. vm_compute. discriminate. Qed.

(** C4: [New] checks its parameters first.  When the columns are neither
    16 nor 20, or the rows none of 1, 2, 4, or the font neither 5x8 nor
    5x10, or the font is 5x10 with more than one row, it returns an
    invalid-argument error and has done nothing on the transport: no open,
    no write.  The bus, the address and the host play no part. *)
Theorem New_rejects_invalid (host : Host) (bus : string) (address : Z)
    (cols rows font : Z) (isBacklightOn : bool) :
  (cols <> 16 /\ cols <> 20)
  \/ (rows <> 1 /\ rows <> 2 /\ rows <> 4)
  \/ (font <> Font5x8 /\ font <> Font5x10)
  \/ (font = Font5x10 /\ rows <> 1) ->
  exists e,
    New host bus address cols rows font isBacklightOn = (Err e, [])
    /\ kind_of e = InvalidArgument.
Proof.
  intros H. unfold New.
  destruct (validateInputs cols rows font) as [e|] eqn:E.
  - exists (ErrInvalidInputs e). split; [reflexivity|].
    simpl. now apply (validateInputs_kind cols rows font).
  - apply validateInputs_None_iff in E. destruct E as (Hc & Hr & Hf & Hfr).
    exfalso. destruct H as [H | [H | [H | [H1 H2]]]]; lia.
Qed.

Lemma New_rejects_invalid_witness :
  exists e,
    New healthy_host DefaultDevice DefaultAddress 20 2 Font5x10 true = (Err e, [])
    /\ kind_of e = InvalidArgument.
Proof.
  apply (New_rejects_invalid healthy_host DefaultDevice DefaultAddress
           20 2 Font5x10 true).
  right; right; right. split; [reflexivity | lia].
Defined.

(** ** Strings as [range] walks them *)

Example runes_ascii : runes "Hello!" = [0x48; 0x65; 0x6C; 0x6C; 0x6F; 0x21].
Proof. reflexivity. Qed.

Example runes_two_bytes : runes_from 0 [0xC3; 0xA9; 0x41] = [0xE9; 0x41].
Proof. reflexivity. Qed.

Example runes_three_bytes : runes_from 0 [0xE2; 0x82; 0xAC] = [0x20AC].
Proof. reflexivity. Qed.

Example runes_invalid : runes_from 0 [0xFF; 0x41; 0xC3] = [RuneError; 0x41; RuneError].
Proof. reflexivity. Qed.

Lemma runes_of_ascii bs :
  Forall (fun b => 0 <= b < 0x80) bs -> runes_from 0 bs = bs.
Proof.
  induction 1 as [|b tl Hb _ IH]; cbn [runes_from].
  - reflexivity.
  - unfold decodeRune. destruct (Z.ltb_spec b 0x80); [|lia].
    cbn [Nat.pred]. now rewrite IH.
Qed.

(** ** Cursor addressing *)

Lemma SetCursor_bad_col row col lcd :
  col < 0 \/ cols lcd <= col ->
  SetCursor row col lcd = (Err (ErrInvalidCol col), lcd).
Proof.
  intros H. unfold SetCursor.
  destruct (Z.ltb_spec col 0), (Z.geb_spec col (cols lcd)); simpl; try reflexivity.
  lia.
Qed.

Lemma SetCursor_bad_row row col lcd :
  0 <= col < cols lcd -> row < 0 \/ 3 < row ->
  SetCursor row col lcd = (Err (ErrInvalidRow row), lcd).
Proof.
  intros Hc Hr. unfold SetCursor.
  destruct (Z.ltb_spec col 0), (Z.geb_spec col (cols lcd)); simpl; try lia.
  destruct row as [|[[|[]|]|[|[]|]|]|]; try reflexivity; lia.
Qed.

(** The row is checked against 0..3 only; [lcd.rows] is not consulted. *)
Lemma SetCursor_in_range row col lcd :
  Healthy (i2c lcd) -> 0 <= col < cols lcd -> cols lcd <= 20 -> 0 <= row <= 3 ->
  emits (SetCursor row col) lcd
    (send_bytes (backlight lcd) lcdRegisterCommand (base_address row + col)).
Proof.
  intros Hh Hc Hw Hr. unfold emits, SetCursor.
  destruct (Z.ltb_spec col 0), (Z.geb_spec col (cols lcd)); simpl orb; cbv iota; try lia.
  assert (E : forall b, 0 <= b < 216 -> add8 b (to_byte col) = b + col).
  { intros b Hb. unfold add8, to_byte.
    rewrite (Z.mod_small col) by lia. apply Z.mod_small. lia. }
  assert (Hrow : row = 0 \/ row = 1 \/ row = 2 \/ row = 3) by lia.
  destruct Hrow as [-> | [-> | [-> | ->]]]; cbv zeta iota beta;
    unfold sendCommand; rewrite E by (vm_compute; split; congruence);
    now apply send_emits.
Qed.

(** C3 (what the code does on a row beyond the configured geometry): on a
    handle built for 16 columns and 2 rows, [SetCursor(2, 0)] does not
    fail; it sends the address command 0x94 in four transport writes. *)
Theorem SetCursor_row_beyond_geometry :
  exists lcd,
    fst (New healthy_host DefaultDevice DefaultAddress 16 2 Font5x8 false) = Ok lcd
    /\ rows lcd = 2
    /\ SetCursor 2 0 lcd
       = (Ok tt, push_bytes (frame 0 lcdRegisterCommand 0x94) lcd)
    /\ frame 0 lcdRegisterCommand 0x94 = [0x94; 0x90; 0x44; 0x40].
Proof.
  exists (push_bytes (init_bytes 2 Font5x8) (fresh_lcd (fun _ => false) 16 2 Font5x8)).
  repeat split; reflexivity.
Qed.

(** ** Custom characters *)

Lemma frames_of_bytes bl rs bs :
  valid_backlight bl -> valid_rs rs -> Forall is_byte bs ->
  concat (map (send_bytes bl rs) bs) = concat (map (frame bl rs) bs).
Proof.
  intros Hbl Hrs H. induction H as [|b tl Hb _ IH]; cbn [map concat].
  - reflexivity.
  - now rewrite IH, send_bytes_frame.
Qed.

Lemma cgram_address location :
  is_byte location ->
  Z.lor lcdCGRAMAddrBase (shl8 (Z.land location 0x7) 3)
  = Z.lor 0x40 (Z.shiftl (Z.land location 0x7) 3)
  /\ is_byte (Z.lor 0x40 (Z.shiftl (Z.land location 0x7) 3)).
Proof.
  intros H. assert (C : cgram_check location = true).
  { revert location H. apply byte_cases. vm_compute. reflexivity. }
  unfold cgram_check in C. cbv zeta in C.
  apply andb_prop in C as [C C3]. apply andb_prop in C as [C1 C2].
  apply Z.eqb_eq in C1. rewrite C1 in *. split; [reflexivity|].
  unfold is_byte. lia.
Qed.

Lemma io_UploadCustomChar location char lcd :
  io_step (fun _ => True) (UploadCustomChar location char) lcd.
Proof.
  unfold UploadCustomChar, sendCommand. cbv zeta. apply io_bind.
  - apply io_send, Forall_trivial.
  - intros lcd' _. apply io_sendAll.
    apply Forall_forall. intros b _. apply Forall_trivial.
Qed.

(** C5: [UploadCustomChar location pattern] keeps the low three bits of
    [location] only.  On a bus that accepts its writes it sends one command
    byte [0x40 | ((location & 0x7) << 3)] and then the eight bytes of
    [pattern] as data, in order, each framed by [send].  Whatever the bus
    does, a failure is the bus write error, never an invalid argument, and
    a location and its low three bits behave alike. *)
Theorem UploadCustomChar_frames (lcd : LCD) (location : Z) (pattern : list Z) :
  is_byte location -> Forall is_byte pattern -> length pattern = 8%nat ->
  valid_backlight (backlight lcd) ->
  let bl := backlight lcd in
  let address := Z.lor 0x40 (Z.shiftl (Z.land location 0x7) 3) in
  (Healthy (i2c lcd) ->
   UploadCustomChar location pattern lcd
   = (Ok tt, push_bytes (frame bl lcdRegisterCommand address
                         ++ concat (map (frame bl lcdRegisterData) pattern)) lcd))
  /\ length (frame bl lcdRegisterCommand address
             ++ concat (map (frame bl lcdRegisterData) pattern)) = 36%nat
  /\ (forall e, fst (UploadCustomChar location pattern lcd) = Err e ->
                e = ErrI2CWrite /\ kind_of e = IOError)
  /\ UploadCustomChar location pattern lcd
     = UploadCustomChar (Z.land location 0x7) pattern lcd.
Proof.
  intros Hl Hp Hn Hbl bl address.
  destruct (cgram_address location Hl) as [Ea Hab]. fold address in Ea, Hab.
  split; [|split; [|split]].
  - intros Hh. unfold UploadCustomChar, sendCommand. cbv zeta. rewrite Ea.
    apply emits_bind.
    + rewrite <- send_bytes_frame by (assumption || now left).
      now apply send_emits.
    + rewrite <- frames_of_bytes by (assumption || now right).
      apply (sendAll_emits pattern (push_bytes _ lcd)). intro n. apply Hh.
  - do 9 (destruct pattern as [|? pattern]; try discriminate Hn). reflexivity.
  - intros e He. destruct (io_UploadCustomChar location pattern lcd) as (_ & [H | H] & _);
      rewrite He in H; inversion H. now split.
  - unfold UploadCustomChar. cbv zeta.
    now rewrite <- Z.land_assoc, Z.land_diag.
Qed.

Lemma UploadCustomChar_frames_witness :
  UploadCustomChar 0x0A cthulhu sample_lcd
  = (Ok tt, push_bytes
      ([0x5C; 0x58; 0x0C; 0x08]
       ++ [0x0D; 0x09; 0xED; 0xE9] ++ [0x1D; 0x19; 0xFD; 0xF9]
       ++ [0x1D; 0x19; 0x5D; 0x59] ++ [0x1D; 0x19; 0xFD; 0xF9]
       ++ [0x0D; 0x09; 0xED; 0xE9] ++ [0x1D; 0x19; 0xFD; 0xF9]
       ++ [0x1D; 0x19; 0x5D; 0x59] ++ [0x1D; 0x19; 0x5D; 0x59]) sample_lcd).
Proof.
  refine (proj1 (UploadCustomChar_frames sample_lcd 0x0A cthulhu _ _ _ _) _).
  - unfold is_byte; lia.
  - repeat constructor; unfold is_byte; simpl; lia.
  - reflexivity.
  - right; reflexivity.
  - intro n; reflexivity.
Defined.

(** ** End to end *)

(** C6: after construction with 16 columns, 2 rows, the 5x8 font and the
    backlight on, [Print("HI", 0, 0)] has twelve bytes written: the frame
    of the address command 0x80, then the frames of the data bytes 0x48 and
    0x49, each high nibble first with two writes per nibble; the backlight
    bit 0x08 is set in every one of them. *)
Theorem Print_HI :
  exists lcd,
    New healthy_host DefaultDevice DefaultAddress 16 2 Font5x8 true
    = (Ok lcd, EvOpen DefaultDevice DefaultAddress
               :: map EvWrite (init_bytes 2 Font5x8))
    /\ runes "HI" = [0x48; 0x49]
    /\ Print "HI" 0 0 lcd
       = (Ok tt, push_bytes (frame lcdBacklightOn lcdRegisterCommand 0x80
                             ++ frame lcdBacklightOn lcdRegisterData 0x48
                             ++ frame lcdBacklightOn lcdRegisterData 0x49) lcd)
    /\ frame lcdBacklightOn lcdRegisterCommand 0x80 = [0x8C; 0x88; 0x0C; 0x08]
    /\ frame lcdBacklightOn lcdRegisterData 0x48 = [0x4D; 0x49; 0x8D; 0x89]
    /\ frame lcdBacklightOn lcdRegisterData 0x49 = [0x4D; 0x49; 0x9D; 0x99]
    /\ Forall (fun w => Z.land w lcdBacklightOn = lcdBacklightOn)
         (frame lcdBacklightOn lcdRegisterCommand 0x80
          ++ frame lcdBacklightOn lcdRegisterData 0x48
          ++ frame lcdBacklightOn lcdRegisterData 0x49).
Proof.
  exists constructed_lcd.
  repeat split; try reflexivity.
  repeat constructor.
Qed.

(** ** Backlight *)

Lemma busWrite_fields data lcd : same_fields lcd (snd (busWrite data lcd)).
Proof. now destruct (io_busWrite (fun _ => True) data lcd I). Qed.

Lemma EnableBacklight_backlight lcd :
  backlight (snd (EnableBacklight lcd)) = lcdBacklightOn.
Proof.
  unfold EnableBacklight. cbv zeta. cbn [backlight set_backlight].
  now destruct (busWrite_fields lcdBacklightOn (set_backlight lcdBacklightOn lcd))
    as (<- & _).
Qed.

Lemma DisableBacklight_backlight lcd :
  backlight (snd (DisableBacklight lcd)) = lcdBacklightOff.
Proof.
  unfold DisableBacklight. cbv zeta. cbn [backlight set_backlight].
  now destruct (busWrite_fields lcdBacklightOff (set_backlight lcdBacklightOff lcd))
    as (<- & _).
Qed.

Lemma ToggleBacklight_backlight lcd :
  backlight (snd (ToggleBacklight lcd))
  = if backlight lcd =? lcdBacklightOff then lcdBacklightOn else lcdBacklightOff.
Proof.
  unfold ToggleBacklight. destruct (backlight lcd =? lcdBacklightOff).
  - apply EnableBacklight_backlight.
  - apply DisableBacklight_backlight.
Qed.

(** The stored backlight byte is 0x00 or 0x08 in every handle the driver
    can produce. *)

Lemma send_keeps value rs : keeps_backlight (send value rs).
Proof.
  intros lcd.
  now destruct (io_send (fun _ => True) value rs lcd (Forall_trivial _))
    as ((<- & _) & _).
Qed.

Lemma bind_keeps m1 m2 :
  keeps_backlight m1 -> keeps_backlight m2 -> keeps_backlight (m1 ;; m2).
Proof.
  intros H1 H2 lcd. unfold bind. specialize (H1 lcd).
  destruct (m1 lcd) as [[[]|e] lcd1]; simpl in *.
  - now rewrite H2.
  - assumption.
Qed.

Lemma sendAll_keeps bs : keeps_backlight (sendAll bs).
Proof.
  induction bs as [|b tl IH]; cbn [sendAll].
  - intros lcd. reflexivity.
  - apply bind_keeps; [apply send_keeps | assumption].
Qed.

Lemma SetCursor_keeps row col : keeps_backlight (SetCursor row col).
Proof.
  intros lcd. unfold SetCursor.
  destruct ((col <? 0) || (col >=? cols lcd)); [reflexivity|].
  destruct row as [|[[|[]|]|[|[]|]|]|]; try reflexivity; apply send_keeps.
Qed.

Lemma run_valid_backlight c lcd :
  valid_backlight (backlight lcd) ->
  valid_backlight (backlight (snd (run c lcd))).
Proof.
  intros Hv.
  assert (K : forall m, keeps_backlight m ->
                valid_backlight (backlight (snd (m lcd)))).
  { intros m Hm. now rewrite Hm. }
  assert (D : forall ds command,
             valid_backlight
               (backlight (snd (sendCommand command (set_displayState ds lcd))))).
  { intros ds command. unfold sendCommand. now rewrite send_keeps. }
  destruct c; cbn [run];
    try (apply K;
         solve [ apply send_keeps | apply sendAll_keeps | apply SetCursor_keeps
               | apply bind_keeps;
                 first [ apply send_keeps | apply sendAll_keeps
                       | apply SetCursor_keeps ] ]).
  - rewrite EnableBacklight_backlight. now right.
  - rewrite DisableBacklight_backlight. now left.
  - rewrite ToggleBacklight_backlight.
    destruct (backlight lcd =? lcdBacklightOff); [now right | now left].
  - apply D.
  - apply D.
  - unfold ToggleDisplay. destruct (_ =? _); apply D.
  - apply D.
  - apply D.
  - unfold ToggleCursor. destruct (_ =? _); apply D.
  - apply D.
  - apply D.
  - unfold ToggleBlink. destruct (_ =? _); apply D.
Qed.

(** C10: [EnableBacklight] ([DisableBacklight]) stores 0x08 (0x00) in the
    handle and then makes exactly one bus write, of that very byte, with
    no nibble framing and no enable pulse: when the bus accepts it the log
    grows by the single byte, and when it does not the call returns the
    write error with the field already set.  In that byte the
    register-select bit, the enable bit and the four data bits are 0. *)
Theorem backlight_raw_write (lcd : LCD) :
  let accepted := fault (i2c lcd) (attempts (i2c lcd)) = false in
  let refused := fault (i2c lcd) (attempts (i2c lcd)) = true in
  let one_write (op : M unit) (b : Z) :=
    backlight (snd (op lcd)) = b
    /\ attempts (i2c (snd (op lcd))) = S (attempts (i2c lcd))
    /\ (accepted -> op lcd = (Ok tt, push_bytes [b] (set_backlight b lcd)))
    /\ (refused ->
        fst (op lcd) = Err ErrI2CWrite
        /\ wire (i2c (snd (op lcd))) = wire (i2c lcd))
    /\ Z.land b lcdRegisterData = 0
    /\ Z.land b lcdEnableBit = 0
    /\ Z.shiftr b 4 = 0 in
  one_write EnableBacklight lcdBacklightOn
  /\ one_write DisableBacklight lcdBacklightOff.
Proof.
  cbv zeta. unfold EnableBacklight, DisableBacklight, busWrite, i2c_Write.
  cbv zeta. cbn [backlight i2c set_backlight].
  destruct (fault (i2c lcd) (attempts (i2c lcd)));
    repeat split; try reflexivity; try discriminate.
Qed.

Lemma backlight_raw_write_witness :
  EnableBacklight (set_backlight lcdBacklightOff sample_lcd)
  = (Ok tt, push_bytes [0x08] sample_lcd)
  /\ DisableBacklight sample_lcd
     = (Ok tt, push_bytes [0x00] (set_backlight lcdBacklightOff sample_lcd)).
Proof.
  split.
  - apply (proj1 (backlight_raw_write (set_backlight lcdBacklightOff sample_lcd))).
    reflexivity.
  - apply (proj2 (backlight_raw_write sample_lcd)).
    reflexivity.
Defined.

(** ** Display control *)

Lemma sendCommand_fields command lcd :
  same_fields lcd (snd (sendCommand command lcd)).
Proof.
  unfold sendCommand.
  now destruct (io_send (fun _ => True) command lcdRegisterCommand lcd
                  (Forall_trivial _)).
Qed.

Lemma switch_spec_of (op : M unit) (bit : Z) (on : bool) :
  In bit control_bits ->
  (forall lcd,
     op lcd = sendCommand (Z.lor lcdDisplayCtrl (switched bit on (displayState lcd)))
                (set_displayState (switched bit on (displayState lcd)) lcd)) ->
  switch_spec op bit on.
Proof.
  intros Hbit Hop lcd Hds. cbv zeta. rewrite Hop.
  set (ds' := switched bit on (displayState lcd)).
  destruct (sendCommand_fields (Z.lor lcdDisplayCtrl ds') (set_displayState ds' lcd))
    as (Eb & Ec & Er & Ef & Ed & _).
  cbn [backlight cols rows font displayState set_displayState] in Eb, Ec, Er, Ef, Ed.
  rewrite <- Eb, <- Ec, <- Er, <- Ef, <- Ed.
  assert (C : switch_check bit on (displayState lcd) = true).
  { revert Hds. generalize (displayState lcd).
    unfold control_bits in Hbit. simpl in Hbit.
    destruct Hbit as [<- | [<- | [<- | []]]]; destruct on;
      apply byte_cases; vm_compute; reflexivity. }
  unfold switch_check in C. cbv zeta in C. fold ds' in C.
  repeat (apply andb_prop in C; destruct C as [C ?]).
  repeat match goal with
         | H : (_ =? _) = true |- _ => apply Z.eqb_eq in H
         | H : (_ <=? _) = true |- _ => apply Z.leb_le in H
         | H : (_ <? _) = true |- _ => apply Z.ltb_lt in H
         end.
  split; [assumption|]. split.
  { intros other Hin Hne.
    match goal with H : forallb _ _ = true |- _ =>
      rewrite forallb_forall in H; specialize (H other Hin);
      apply orb_prop in H; destruct H as [H | H]; apply Z.eqb_eq in H end.
    - contradiction.
    - assumption. }
  split; [unfold is_byte; lia|].
  repeat (split; [reflexivity|]).
  intros Hh Hbl. unfold sendCommand.
  rewrite <- send_bytes_frame by (assumption || (now left) || (unfold is_byte; lia)).
  apply (send_emits _ _ (set_displayState ds' lcd)). exact Hh.
Qed.

(** C7: each of [DisplayOn], [DisplayOff], [CursorOn], [CursorOff],
    [BlinkOn], [BlinkOff] sets or clears its own bit of the stored display
    state, keeps the other two control bits, the backlight byte and the
    geometry, and sends [lcdDisplayCtrl | displayState] for the new state
    as a single command. *)
Theorem display_switches :
  switch_spec DisplayOn lcdDisplayOn true
  /\ switch_spec DisplayOff lcdDisplayOn false
  /\ switch_spec CursorOn lcdDisplayCursorOn true
  /\ switch_spec CursorOff lcdDisplayCursorOn false
  /\ switch_spec BlinkOn lcdDisplayBlinkOn true
  /\ switch_spec BlinkOff lcdDisplayBlinkOn false.
Proof.
  split; [|split; [|split; [|split; [|split]]]]; apply switch_spec_of;
    solve [ unfold control_bits; simpl; tauto | intros lcd; reflexivity ].
Qed.

Lemma display_switches_witness :
  CursorOn sample_lcd
  = (Ok tt, push_bytes [0x0C; 0x08; 0xEC; 0xE8] (set_displayState 0x06 sample_lcd))
  /\ DisplayOff sample_lcd
     = (Ok tt, push_bytes [0x0C; 0x08; 0x8C; 0x88] (set_displayState 0x00 sample_lcd)).
Proof.
  destruct display_switches as (_ & Hoff & Hcur & _).
  split.
  - refine (proj2 (proj2 (proj2 (proj2 (proj2 (proj2 (proj2
             (Hcur sample_lcd _))))))) _ _).
    + unfold is_byte, sample_lcd, lcdDisplayOn; simpl; lia.
    + intro n; reflexivity.
    + right; reflexivity.
  - refine (proj2 (proj2 (proj2 (proj2 (proj2 (proj2 (proj2
             (Hoff sample_lcd _))))))) _ _).
    + unfold is_byte, sample_lcd, lcdDisplayOn; simpl; lia.
    + intro n; reflexivity.
    + right; reflexivity.
Defined.

(** ** The backlight bit during construction *)

Lemma io_bind_from P m1 m2 lcd0 lcd :
  same_fields lcd0 lcd ->
  io_step P m1 lcd ->
  (forall lcd', same_fields lcd0 lcd' -> io_step P m2 lcd') ->
  io_step P (m1 ;; m2) lcd.
Proof.
  intros H0 H1 H2. apply io_bind; [assumption|].
  intros lcd' H. apply H2. eapply same_fields_trans; eassumption.
Qed.

Lemma io_send_pin lcd0 value rs lcd :
  same_fields lcd0 lcd -> valid_backlight (backlight lcd0) ->
  valid_rs rs -> is_byte value ->
  io_step (backlight_pin (backlight lcd0)) (send value rs) lcd.
Proof.
  intros (Hb & _) Hbl Hrs Hv. apply io_send. rewrite <- Hb.
  now apply send_bytes_backlight.
Qed.

Lemma three_byte : is_byte 0x03.
Proof. unfold is_byte; lia. Qed.

Lemma two_byte : is_byte 0x02.
Proof. unfold is_byte; lia. Qed.

Lemma entry_mode_byte : is_byte entry_mode_command.
Proof. vm_compute; split; congruence. Qed.

Lemma clear_byte : is_byte lcdClear.
Proof. vm_compute; split; congruence. Qed.

Lemma command_rs : valid_rs lcdRegisterCommand.
Proof. now left. Qed.

(** Every byte [init] gets written shows the handle's backlight byte on
    the backlight pin, on any bus. *)
Lemma io_init lcd :
  valid_backlight (backlight lcd) ->
  is_byte (function_set_command (rows lcd) (font lcd)) ->
  is_byte (Z.lor lcdDisplayCtrl (displayState lcd)) ->
  io_step (backlight_pin (backlight lcd)) init lcd.
Proof.
  intros Hbl Hfs Hdc. unfold init, Clear, sendCommand.
  pose proof (same_fields_refl lcd) as S0.
  pose proof three_byte. pose proof two_byte.
  pose proof entry_mode_byte. pose proof clear_byte. pose proof command_rs.
  apply (io_bind_from _ _ _ lcd); [assumption | now apply (io_send_pin lcd) |].
  intros l1 S1.
  apply (io_bind_from _ _ _ lcd); [assumption | now apply (io_send_pin lcd) |].
  intros l2 S2.
  apply (io_bind_from _ _ _ lcd); [assumption | now apply (io_send_pin lcd) |].
  intros l3 S3.
  apply (io_bind_from _ _ _ lcd); [assumption | now apply (io_send_pin lcd) |].
  intros l4 S4.
  apply (io_bind_from _ _ _ lcd); [assumption | |].
  { unfold io_step. cbv beta. apply (io_send_pin lcd); try assumption.
    destruct S4 as (_ & _ & <- & <- & _). exact Hfs. }
  intros l5 S5.
  apply (io_bind_from _ _ _ lcd); [assumption | |].
  { unfold io_step. cbv beta. apply (io_send_pin lcd); try assumption.
    destruct S5 as (_ & _ & _ & _ & <- & _). exact Hdc. }
  intros l6 S6.
  apply (io_bind_from _ _ _ lcd); [assumption | now apply (io_send_pin lcd) |].
  intros l7 S7. now apply (io_send_pin lcd).
Qed.

Lemma io_init_fresh f c r fo :
  valid_config c r fo ->
  io_step (backlight_pin 0) init (fresh_lcd f c r fo).
Proof.
  intros (_ & Hr & Hf & _).
  apply (io_init (fresh_lcd f c r fo)).
  - now left.
  - now apply function_set_byte.
  - vm_compute; split; congruence.
Qed.

(** [New] returns a handle whose backlight byte is 0x00 or 0x08. *)
Lemma New_valid_backlight host bus address c r fo on lcd :
  fst (New host bus address c r fo on) = Ok lcd ->
  valid_backlight (backlight lcd).
Proof.
  unfold New. destruct (validateInputs c r fo) eqn:E; [discriminate|].
  apply validateInputs_None_iff in E.
  unfold i2c_Open. destruct (host bus address) as [f|]; [|discriminate].
  fold (fresh_lcd f c r fo).
  destruct (io_init_fresh f c r fo E) as ((Hb & _) & _).
  destruct (init (fresh_lcd f c r fo)) as [[[]|e] lcd']; [|discriminate].
  simpl in *. intros H. injection H as <-.
  destruct on; [now right | left; symmetry; exact Hb].
Qed.

Lemma reachable_valid_backlight lcd :
  reachable lcd -> valid_backlight (backlight lcd).
Proof.
  induction 1 as [host bus address c r fo on lcd H | lcd c _ IH].
  - eapply New_valid_backlight; eassumption.
  - now apply run_valid_backlight.
Qed.

Lemma ToggleBacklight_flips lcd :
  valid_backlight (backlight lcd) ->
  backlight (snd (ToggleBacklight lcd)) <> backlight lcd
  /\ valid_backlight (backlight (snd (ToggleBacklight lcd)))
  /\ backlight (snd (ToggleBacklight (snd (ToggleBacklight lcd)))) = backlight lcd.
Proof.
  intros Hv. rewrite !ToggleBacklight_backlight.
  destruct Hv as [-> | ->]; unfold valid_backlight; simpl;
    repeat split; auto; discriminate.
Qed.

(** C8: on every handle the driver can produce (returned by [New], then
    used through any calls), one [ToggleBacklight] flips the stored
    backlight byte between 0x00 and 0x08, and a second one brings it back
    to what it was.  This holds whether or not the bus accepts the
    writes. *)
Theorem ToggleBacklight_twice (lcd : LCD) :
  reachable lcd ->
  let lcd1 := snd (ToggleBacklight lcd) in
  let lcd2 := snd (ToggleBacklight lcd1) in
  backlight lcd1
  = (if backlight lcd =? lcdBacklightOff then lcdBacklightOn else lcdBacklightOff)
  /\ backlight lcd1 <> backlight lcd
  /\ valid_backlight (backlight lcd1)
  /\ backlight lcd2 = backlight lcd.
Proof.
  intros Hr lcd1 lcd2. apply reachable_valid_backlight in Hr.
  destruct (ToggleBacklight_flips lcd Hr) as (H1 & H2 & H3).
  split; [apply ToggleBacklight_backlight|]. now repeat split.
Qed.

Lemma ToggleBacklight_twice_witness :
  backlight (snd (ToggleBacklight (snd (ToggleBacklight constructed_lcd))))
  = backlight constructed_lcd.
Proof.
  apply (ToggleBacklight_twice constructed_lcd).
  apply (reach_New healthy_host DefaultDevice DefaultAddress 16 2 Font5x8 true).
  reflexivity.
Defined.

(** C9: with [isBacklightOn = true], every byte written on the transport
    during construction has the backlight bit 0x08 clear, on any host and
    for any parameters.  A handle is returned only when [init] has
    succeeded; it is the handle [init] left, whose backlight byte is still
    0x00, with that byte then set to 0x08.  From then on every byte a
    [send] gets written has the bit set. *)
Theorem New_init_backlight_clear (host : Host) (bus : string) (address : Z)
    (cols rows font : Z) :
  let r := New host bus address cols rows font true in
  (forall w, In (EvWrite w) (snd r) -> Z.land w lcdBacklightOn = 0)
  /\ (forall lcd, fst r = Ok lcd ->
        (exists f lcd0,
           host bus address = Some f
           /\ init (fresh_lcd f cols rows font) = (Ok tt, lcd0)
           /\ backlight lcd0 = lcdBacklightOff
           /\ lcd = set_backlight lcdBacklightOn lcd0)
        /\ backlight lcd = lcdBacklightOn
        /\ Forall (fun w => Z.land w lcdBacklightOn = 0) (wire (i2c lcd))
        /\ (forall value rs, is_byte value -> valid_rs rs ->
              io_step (fun w => Z.land w lcdBacklightOn = lcdBacklightOn)
                      (send value rs) lcd)).
Proof.
  cbv zeta. unfold New.
  destruct (validateInputs cols rows font) eqn:E.
  { split; [intros w []|discriminate]. }
  apply validateInputs_None_iff in E.
  unfold i2c_Open. destruct (host bus address) as [f|].
  2:{ split; [|discriminate]. intros w [H|[]]. discriminate H. }
  fold (fresh_lcd f cols rows font).
  destruct (io_init_fresh f cols rows font E) as ((Hb & _) & _ & bs & Hw & HP).
  destruct (init (fresh_lcd f cols rows font)) as [[[]|e] lcd'] eqn:Ei;
    cbn [fst snd] in *; cbn [wire i2c fresh_lcd app] in Hw.
  - split.
    + intros w [H|H]; [discriminate H|].
      apply in_map_iff in H as (w' & Hw' & Hin). injection Hw' as ->.
      rewrite Hw in Hin. rewrite Forall_forall in HP. now apply HP.
    + intros lcd H. injection H as <-. split; [|split; [|split]].
      * exists f, lcd'. split; [reflexivity|]. split; [first [exact Ei | reflexivity]|].
        split; [symmetry; exact Hb | reflexivity].
      * reflexivity.
      * cbn [i2c set_backlight]. now rewrite Hw.
      * intros value rs Hv Hrs.
        apply (io_send_pin (set_backlight lcdBacklightOn lcd')); try assumption.
        -- apply same_fields_refl.
        -- now right.
  - split; [|discriminate].
    intros w [H|H]; [discriminate H|].
    apply in_map_iff in H as (w' & Hw' & Hin). injection Hw' as ->.
    rewrite Hw in Hin. rewrite Forall_forall in HP. now apply HP.
Qed.

Lemma New_init_backlight_clear_witness :
  exists lcd,
    fst (New healthy_host DefaultDevice DefaultAddress 16 2 Font5x8 true) = Ok lcd
    /\ backlight lcd = lcdBacklightOn
    /\ length (wire (i2c lcd)) = 32%nat
    /\ Forall (fun w => Z.land w lcdBacklightOn = 0) (wire (i2c lcd)).
Proof.
  exists constructed_lcd.
  split; [reflexivity|]. split; [reflexivity|]. split; [reflexivity|].
  apply (proj2 (New_init_backlight_clear healthy_host DefaultDevice
                  DefaultAddress 16 2 Font5x8)
               constructed_lcd).
  reflexivity.
Defined.

(** * Further properties *)

(** ** Stopping at the first refused write *)

Lemma bind_ret_r (m : M unit) lcd : (m ;; ret tt) lcd = m lcd.
Proof. unfold bind, ret. now destruct (m lcd) as [[[]|e] lcd']. Qed.

Lemma busWriteAll_app b1 b2 : forall lcd,
  busWriteAll (b1 ++ b2) lcd = (busWriteAll b1 ;; busWriteAll b2) lcd.
Proof.
  induction b1 as [|b tl IH]; intros lcd; cbn [busWriteAll app].
  - reflexivity.
  - unfold bind at 1 2 3. destruct (busWrite b lcd) as [[[]|e] lcd1]; [|reflexivity].
    apply IH.
Qed.

Lemma busWriteAll_fields bs : forall lcd,
  same_fields lcd (snd (busWriteAll bs lcd)).
Proof.
  induction bs as [|b tl IH]; intros lcd; cbn [busWriteAll].
  - apply same_fields_refl.
  - unfold bind. pose proof (busWrite_fields b lcd) as H.
    destruct (busWrite b lcd) as [[[]|e] lcd1]; simpl in H.
    + eapply same_fields_trans; [exact H | apply IH].
    + exact H.
Qed.

Lemma writes_bind m1 m2 lcd b1 b2 :
  m1 lcd = busWriteAll b1 lcd ->
  (forall lcd', same_fields lcd lcd' -> m2 lcd' = busWriteAll b2 lcd') ->
  (m1 ;; m2) lcd = busWriteAll (b1 ++ b2) lcd.
Proof.
  intros H1 H2. rewrite busWriteAll_app. unfold bind. rewrite H1.
  pose proof (busWriteAll_fields b1 lcd) as Hf.
  destruct (busWriteAll b1 lcd) as [[[]|e] lcd1]; [|reflexivity].
  now apply H2.
Qed.

Lemma writeByte_writes value rs lcd :
  writeByte value rs lcd = busWriteAll (nibble_bytes (backlight lcd) rs value) lcd.
Proof.
  unfold writeByte, nibble_bytes. cbv zeta. cbn [busWriteAll].
  unfold bind at 1 2. destruct (busWrite _ lcd) as [[[]|e] lcd1]; [|reflexivity].
  now rewrite bind_ret_r.
Qed.

Lemma send_writes value rs lcd :
  send value rs lcd = busWriteAll (send_bytes (backlight lcd) rs value) lcd.
Proof.
  unfold send, send_bytes. apply writes_bind.
  - apply writeByte_writes.
  - intros lcd' (Hb & _). rewrite Hb. apply writeByte_writes.
Qed.

Lemma sendAll_writes bs : forall lcd,
  sendAll bs lcd
  = busWriteAll (concat (map (send_bytes (backlight lcd) lcdRegisterData) bs)) lcd.
Proof.
  induction bs as [|b tl IH]; intros lcd; cbn [sendAll map concat].
  - reflexivity.
  - apply writes_bind.
    + apply send_writes.
    + intros lcd' (Hb & _). rewrite Hb. apply IH.
Qed.

Lemma busWriteAll_stops bs : forall lcd,
  stops_at_first_refusal (busWriteAll bs) lcd bs.
Proof.
  induction bs as [|b tl IH]; intros lcd; unfold stops_at_first_refusal;
    cbn [busWriteAll accepted_count].
  - cbv zeta. unfold ret. cbn [fst snd firstn length].
    split; [apply same_fields_refl|]. split; [now rewrite app_nil_r|].
    split; [intros i Hi; lia|]. left. repeat split. lia.
  - cbv zeta. unfold bind, busWrite, i2c_Write.
    destruct (fault (i2c lcd) (attempts (i2c lcd))) eqn:Ef.
    + cbn [fst snd firstn length i2c set_i2c wire attempts].
      split; [unfold same_fields; simpl; tauto|]. split; [now rewrite app_nil_r|].
      split; [intros i Hi; lia|]. right.
      rewrite Nat.add_0_r. repeat split; [lia | assumption].
    + set (lcd1 := set_i2c _ lcd).
      specialize (IH lcd1). unfold stops_at_first_refusal in IH. cbv zeta in IH.
      destruct IH as (Hf & Hw & Hi & Hr).
      cbn [i2c set_i2c wire attempts fault lcd1] in Hw, Hi, Hr.
      set (k := accepted_count (fault (i2c lcd)) (S (attempts (i2c lcd))) tl) in *.
      split; [exact Hf|]. split.
      { rewrite Hw. cbn [firstn]. now rewrite <- app_assoc. }
      split.
      { intros [|i] Hlt; [now rewrite Nat.add_0_r|].
        rewrite Nat.add_succ_r. apply (Hi i). lia. }
      cbn [length]. rewrite Nat.add_succ_r.
      destruct Hr as [(Hk & Ho & Ha) | (Hk & Hfk & He & Ha)]; [left | right].
      * repeat split; [lia | assumption | exact Ha].
      * repeat split; [lia | exact Hfk | assumption | exact Ha].
Qed.

Lemma stops_of_writes m lcd bs :
  m lcd = busWriteAll bs lcd -> stops_at_first_refusal m lcd bs.
Proof.
  intros H. pose proof (busWriteAll_stops bs lcd) as S.
  unfold stops_at_first_refusal in *. now rewrite H.
Qed.

(** X1: on any bus, [send] tries the four bytes of its frame in order and
    stops at the first one the bus refuses: the bytes before it are
    logged, the refused call is the last one made, the result is the bus
    write error, and nothing else in the handle changes.  With no refusal
    all four are logged and it returns [nil]. *)
Theorem send_stops_at_first_refusal (lcd : LCD) (value rs : Z) :
  valid_backlight (backlight lcd) -> valid_rs rs -> is_byte value ->
  stops_at_first_refusal (send value rs) lcd (frame (backlight lcd) rs value).
Proof.
  intros Hbl Hrs Hv. apply stops_of_writes.
  rewrite <- send_bytes_frame by assumption. apply send_writes.
Qed.

Lemma send_stops_at_first_refusal_witness :
  stops_at_first_refusal (send 0x48 lcdRegisterData) flaky_lcd
    (frame lcdBacklightOn lcdRegisterData 0x48)
  /\ send 0x48 lcdRegisterData flaky_lcd
     = (Err ErrI2CWrite,
        set_i2c (mkDevice [0x4D; 0x49] 3%nat third_write_fails) flaky_lcd).
Proof.
  split; [|reflexivity].
  apply (send_stops_at_first_refusal flaky_lcd 0x48 lcdRegisterData).
  - right; reflexivity.
  - right; reflexivity.
  - unfold is_byte; lia.
Defined.

(** ** Cursor and text on any bus *)

Lemma busWriteAll_emits bs : forall lcd,
  Healthy (i2c lcd) -> emits (busWriteAll bs) lcd bs.
Proof.
  induction bs as [|b tl IH]; intros lcd H; cbn [busWriteAll].
  - unfold emits, ret. now rewrite push_bytes_nil.
  - apply (emits_bind _ _ _ [b] tl).
    + now apply busWrite_emits.
    + apply IH. now apply push_bytes_healthy.
Qed.

Lemma cursor_address_range row col :
  0 <= row <= 3 -> 0 <= col < 20 ->
  0x80 <= base_address row + col <= 0xE7.
Proof.
  intros Hr Hc.
  assert (H : row = 0 \/ row = 1 \/ row = 2 \/ row = 3) by lia.
  destruct H as [-> | [-> | [-> | ->]]]; cbn [base_address]; lia.
Qed.

Lemma SetCursor_writes row col lcd :
  0 <= row <= 3 -> 0 <= col < cols lcd -> cols lcd <= 20 ->
  SetCursor row col lcd
  = busWriteAll (send_bytes (backlight lcd) lcdRegisterCommand
                            (base_address row + col)) lcd.
Proof.
  intros Hr Hc Hw. unfold SetCursor.
  destruct (Z.ltb_spec col 0), (Z.geb_spec col (cols lcd)); simpl orb; cbv iota; try lia.
  assert (E : forall b, 0 <= b < 216 -> add8 b (to_byte col) = b + col).
  { intros b Hb. unfold add8, to_byte.
    rewrite (Z.mod_small col) by lia. apply Z.mod_small. lia. }
  assert (Hrow : row = 0 \/ row = 1 \/ row = 2 \/ row = 3) by lia.
  destruct Hrow as [-> | [-> | [-> | ->]]]; cbv zeta iota beta;
    unfold sendCommand; rewrite E by (vm_compute; split; congruence);
    apply send_writes.
Qed.

Lemma to_byte_is_byte z : is_byte (to_byte z).
Proof. unfold is_byte, to_byte. apply Z.mod_pos_bound. lia. Qed.

Lemma Print_writes text row col lcd :
  0 <= row <= 3 -> 0 <= col < cols lcd -> cols lcd <= 20 ->
  Print text row col lcd
  = busWriteAll
      (send_bytes (backlight lcd) lcdRegisterCommand (base_address row + col)
       ++ concat (map (send_bytes (backlight lcd) lcdRegisterData)
                      (map to_byte (runes text)))) lcd.
Proof.
  intros Hr Hc Hw. unfold Print, Write. apply writes_bind.
  - now apply SetCursor_writes.
  - intros lcd' (Hb & _). rewrite Hb. apply sendAll_writes.
Qed.

Lemma frames_length bl rs bs :
  length (concat (map (frame bl rs) bs)) = (4 * length bs)%nat.
Proof.
  induction bs as [|b tl IH]; cbn [map concat length].
  - reflexivity.
  - rewrite length_app, IH. cbn [frame length]. lia.
Qed.

(** X2: [Print text row col] with the row in 0..3 and the column inside
    the display, on any bus: it tries the frame of the address command
    [base(row) + col] and then one data frame per rune of the text (the
    rune truncated to a byte), 4 + 4n bytes, stopping at the first refused
    write; what was accepted before stays written.  On a bus that accepts
    everything it returns [nil]. *)
Theorem Print_in_range (lcd : LCD) (text : string) (row col : Z) :
  valid_backlight (backlight lcd) ->
  0 <= row <= 3 -> 0 <= col < cols lcd -> cols lcd <= 20 ->
  let bl := backlight lcd in
  let bs := frame bl lcdRegisterCommand (base_address row + col)
            ++ concat (map (frame bl lcdRegisterData) (map to_byte (runes text))) in
  stops_at_first_refusal (Print text row col) lcd bs
  /\ length bs = (4 + 4 * length (runes text))%nat
  /\ (Healthy (i2c lcd) -> Print text row col lcd = (Ok tt, push_bytes bs lcd)).
Proof.
  intros Hbl Hr Hc Hw bl bs.
  assert (Hp : Print text row col lcd = busWriteAll bs lcd).
  { rewrite (Print_writes text row col lcd Hr Hc Hw). unfold bs, bl.
    rewrite send_bytes_frame;
      [| assumption | now left
       | pose proof (cursor_address_range row col Hr); unfold is_byte; lia ].
    rewrite frames_of_bytes; [reflexivity | assumption | now right |].
    apply Forall_forall. intros b Hin. apply in_map_iff in Hin as (r & <- & _).
    apply to_byte_is_byte. }
  split; [now apply stops_of_writes|]. split.
  - unfold bs. rewrite length_app, frames_length, length_map. reflexivity.
  - intros Hh. rewrite Hp. now apply busWriteAll_emits.
Qed.

Lemma Print_in_range_witness :
  Print "Hello!" 1 7 flaky_lcd
  = (Err ErrI2CWrite,
     set_i2c (mkDevice [0xCC; 0xC8] 3%nat third_write_fails) flaky_lcd)
  /\ stops_at_first_refusal (Print "Hello!" 1 7) flaky_lcd
       (frame lcdBacklightOn lcdRegisterCommand 0xC7
        ++ concat (map (frame lcdBacklightOn lcdRegisterData)
                       [0x48; 0x65; 0x6C; 0x6C; 0x6F; 0x21])).
Proof.
  split; [reflexivity|].
  apply (Print_in_range flaky_lcd "Hello!" 1 7).
  - right; reflexivity.
  - lia.
  - simpl; lia.
  - simpl; lia.
Defined.

(** X3: [SetCursor], [Print] and [PrintRAW] with the column outside
    [0, cols) or the row outside 0..3 return an invalid-argument error and
    leave the handle as it was: no bus write is attempted, whatever the
    text.  The column is checked first. *)
Theorem cursor_rejections (lcd : LCD) (text : string) (raw row col : Z) :
  col < 0 \/ cols lcd <= col \/ row < 0 \/ 3 < row ->
  exists e,
    kind_of e = InvalidArgument
    /\ SetCursor row col lcd = (Err e, lcd)
    /\ Print text row col lcd = (Err e, lcd)
    /\ PrintRAW raw row col lcd = (Err e, lcd)
    /\ (col < 0 \/ cols lcd <= col -> e = ErrInvalidCol col)
    /\ (0 <= col < cols lcd -> e = ErrInvalidRow row).
Proof.
  intros H.
  destruct (Z_lt_dec col 0) as [Hc | Hc];
    [| destruct (Z_le_dec (cols lcd) col) as [Hc' | Hc']].
  - exists (ErrInvalidCol col). unfold Print, PrintRAW, bind.
    rewrite (SetCursor_bad_col row col lcd) by lia.
    repeat split; try reflexivity. lia.
  - exists (ErrInvalidCol col). unfold Print, PrintRAW, bind.
    rewrite (SetCursor_bad_col row col lcd) by lia.
    repeat split; try reflexivity. lia.
  - exists (ErrInvalidRow row). unfold Print, PrintRAW, bind.
    rewrite (SetCursor_bad_row row col lcd) by lia.
    repeat split; try reflexivity. lia.
Qed.

Lemma cursor_rejections_witness :
  exists e,
    kind_of e = InvalidArgument
    /\ SetCursor 0 16 sample_lcd = (Err e, sample_lcd)
    /\ Print "Hello!" 0 16 sample_lcd = (Err e, sample_lcd)
    /\ PrintRAW 0 0 16 sample_lcd = (Err e, sample_lcd)
    /\ (16 < 0 \/ cols sample_lcd <= 16 -> e = ErrInvalidCol 16)
    /\ (0 <= 16 < cols sample_lcd -> e = ErrInvalidRow 0).
Proof.
  apply (cursor_rejections sample_lcd "Hello!" 0 0 16).
  right; left. simpl. lia.
Defined.

Lemma frame_inj bl rs a a' :
  valid_backlight bl -> valid_rs rs -> is_byte a -> is_byte a' ->
  frame bl rs a = frame bl rs a' -> a = a'.
Proof.
  intros Hbl Hrs Ha Ha' E.
  pose proof (frame_check_all _ _ _ Hbl Hrs Ha) as C.
  pose proof (frame_check_all _ _ _ Hbl Hrs Ha') as C'.
  unfold frame_check in C, C'. cbv zeta in C, C'.
  repeat (apply andb_prop in C; destruct C as [C ?]).
  repeat (apply andb_prop in C'; destruct C' as [C' ?]).
  match goal with
  | H1 : eqb_list (map (fun w => Z.shiftr w 4) (frame bl rs a)) _ = true,
    H2 : eqb_list (map (fun w => Z.shiftr w 4) (frame bl rs a')) _ = true |- _ =>
      apply eqb_list_true in H1; apply eqb_list_true in H2;
      rewrite E in H1; rewrite H1 in H2; injection H2 as Hhi _ Hlo _
  end.
  rewrite !Z.shiftr_div_pow2 in Hhi by lia.
  change 0x0F with (Z.ones 4) in Hlo. rewrite !Z.land_ones in Hlo by lia.
  rewrite (Z.div_mod a (2 ^ 4)), (Z.div_mod a' (2 ^ 4)) by lia.
  now rewrite Hhi, Hlo.
Qed.

(** X4: on a display of at most 20 columns, [SetCursor] sends an address
    command between 0x80 and 0xE7, and two positions (rows 0..3, columns
    inside the display) that make it do the same thing are the same
    position: no two cells share a DDRAM address. *)
Theorem SetCursor_addresses_distinct (lcd : LCD) (row col row' col' : Z) :
  Healthy (i2c lcd) -> valid_backlight (backlight lcd) -> cols lcd <= 20 ->
  0 <= row <= 3 -> 0 <= col < cols lcd ->
  0 <= row' <= 3 -> 0 <= col' < cols lcd ->
  SetCursor row col lcd
  = (Ok tt, push_bytes (frame (backlight lcd) lcdRegisterCommand
                              (base_address row + col)) lcd)
  /\ 0x80 <= base_address row + col <= 0xE7
  /\ (SetCursor row col lcd = SetCursor row' col' lcd -> row = row' /\ col = col').
Proof.
  intros Hh Hbl Hw Hr Hc Hr' Hc'.
  pose proof (cursor_address_range row col Hr) as Ha.
  pose proof (cursor_address_range row' col' Hr') as Ha'.
  assert (S : forall r c, 0 <= r <= 3 -> 0 <= c < cols lcd ->
            SetCursor r c lcd
            = (Ok tt, push_bytes (frame (backlight lcd) lcdRegisterCommand
                                        (base_address r + c)) lcd)).
  { intros r c Hr0 Hc0. rewrite SetCursor_writes by assumption.
    rewrite send_bytes_frame;
      [| assumption | now left
       | pose proof (cursor_address_range r c Hr0); unfold is_byte; lia ].
    now apply busWriteAll_emits. }
  split; [now apply S|]. split; [lia|].
  rewrite (S row col), (S row' col') by assumption. intros E.
  injection E as E. apply app_inv_head in E.
  apply frame_inj in E;
    [| assumption | now left | unfold is_byte; lia | unfold is_byte; lia ].
  assert (H : row = 0 \/ row = 1 \/ row = 2 \/ row = 3) by lia.
  assert (H' : row' = 0 \/ row' = 1 \/ row' = 2 \/ row' = 3) by lia.
  destruct H as [-> | [-> | [-> | ->]]], H' as [-> | [-> | [-> | ->]]];
    cbn [base_address] in E; lia.
Qed.

Lemma SetCursor_addresses_distinct_witness :
  SetCursor 1 7 sample_lcd
  = (Ok tt, push_bytes [0xCC; 0xC8; 0x7C; 0x78] sample_lcd)
  /\ 0x80 <= base_address 1 + 7 <= 0xE7
  /\ (SetCursor 1 7 sample_lcd = SetCursor 0 7 sample_lcd -> 1 = 0 /\ 7 = 7).
Proof.
  apply (SetCursor_addresses_distinct sample_lcd 1 7 0 7).
  - intro n; reflexivity.
  - right; reflexivity.
  - simpl; lia.
  - lia.
  - simpl; lia.
  - lia.
  - simpl; lia.
Defined.

(** ** Text *)

Lemma bytes_of_string_app s1 s2 :
  bytes_of_string (s1 ++ s2) = bytes_of_string s1 ++ bytes_of_string s2.
Proof.
  unfold bytes_of_string. rewrite <- map_app. f_equal.
  induction s1 as [|a s1 IH]; simpl; [reflexivity | now rewrite IH].
Qed.

Lemma runes_from_ascii_app a b :
  Forall (fun x => 0 <= x < 0x80) a ->
  runes_from 0 (a ++ b) = a ++ runes_from 0 b.
Proof.
  induction 1 as [|x tl Hx _ IH]; cbn [app runes_from].
  - reflexivity.
  - unfold decodeRune. destruct (Z.ltb_spec x 0x80); [|lia].
    cbn [Nat.pred]. now rewrite IH.
Qed.

Lemma sendAll_app a b : forall lcd,
  sendAll (a ++ b) lcd = (sendAll a ;; sendAll b) lcd.
Proof.
  induction a as [|x tl IH]; intros lcd; cbn [sendAll app].
  - reflexivity.
  - unfold bind at 1 2 3. destruct (sendData x lcd) as [[[]|e] lcd1]; [|reflexivity].
    apply IH.
Qed.

(** X5: for a text [s] of ASCII characters, [Write] sends one data frame
    per character, carrying the character's own code, and stops at the
    first refused write; and writing [s] followed by any [t] in one call
    is the same, on any bus, as writing [s] and then, if that succeeded,
    writing [t]. *)
Theorem Write_ascii (lcd : LCD) (s t : string) :
  ascii_text s -> valid_backlight (backlight lcd) ->
  stops_at_first_refusal (Write s) lcd
    (concat (map (frame (backlight lcd) lcdRegisterData) (bytes_of_string s)))
  /\ Write (s ++ t) lcd = (Write s ;; Write t) lcd.
Proof.
  intros Hs Hbl. split.
  - apply stops_of_writes. unfold Write, runes.
    rewrite (runes_of_ascii _ Hs).
    assert (Hb : Forall is_byte (bytes_of_string s)).
    { eapply Forall_impl; [|exact Hs]. intros b Hb. unfold is_byte. simpl in Hb. lia. }
    assert (Hm : map to_byte (bytes_of_string s) = bytes_of_string s).
    { clear Hs. induction Hb as [|b tl Hb _ IH]; cbn [map]; [reflexivity|].
      rewrite IH. unfold to_byte. rewrite Z.mod_small by exact Hb. reflexivity. }
    rewrite Hm, sendAll_writes, frames_of_bytes;
      [reflexivity | assumption | now right | assumption].
  - unfold Write, runes.
    rewrite bytes_of_string_app, (runes_from_ascii_app _ _ Hs), map_app.
    rewrite sendAll_app. fold (runes_from 0 (bytes_of_string s)).
    now rewrite (runes_of_ascii _ Hs).
Qed.

Lemma Write_ascii_witness :
  stops_at_first_refusal (Write "Hi") sample_lcd
    (concat (map (frame lcdBacklightOn lcdRegisterData) [0x48; 0x69]))
  /\ Write ("Hi" ++ "!") sample_lcd = (Write "Hi" ;; Write "!") sample_lcd.
Proof.
  apply (Write_ascii sample_lcd "Hi" "!").
  - repeat constructor; simpl; lia.
  - right; reflexivity.
Defined.

(** X6: a string holding one byte below 0x80 is written as that byte; a
    string holding one byte from 0x80 to 0xFF is not valid UTF-8, [range]
    yields U+FFFD for it, and [Write] sends the data byte 0xFD, whatever
    the byte was.  [WriteRAW] sends its argument as it is. *)
Theorem Write_one_byte (lcd : LCD) (b : Z) :
  is_byte b ->
  Write (one_byte_string b) lcd
  = WriteRAW (if b <? 0x80 then b else 0xFD) lcd.
Proof.
  intros Hb. assert (C : lone_byte_check b = true).
  { revert b Hb. apply byte_cases. vm_compute. reflexivity. }
  unfold lone_byte_check in C. unfold Write, WriteRAW.
  destruct (b <? 0x80); apply eqb_list_true in C; rewrite C;
    cbn [sendAll]; apply bind_ret_r.
Qed.

Lemma Write_one_byte_witness :
  Write (one_byte_string 0xDF) sample_lcd = WriteRAW 0xFD sample_lcd.
Proof.
  apply (Write_one_byte sample_lcd 0xDF). unfold is_byte; lia.
Defined.

(** ** Construction on a faulty host *)

Lemma writes_bind_from lcd0 m1 m2 lcd b1 b2 :
  same_fields lcd0 lcd ->
  m1 lcd = busWriteAll b1 lcd ->
  (forall lcd', same_fields lcd0 lcd' -> m2 lcd' = busWriteAll b2 lcd') ->
  (m1 ;; m2) lcd = busWriteAll (b1 ++ b2) lcd.
Proof.
  intros H0 H1 H2. apply writes_bind; [assumption|].
  intros lcd' H. apply H2. eapply same_fields_trans; eassumption.
Qed.

Lemma send_writes_from lcd0 value rs lcd :
  same_fields lcd0 lcd ->
  send value rs lcd = busWriteAll (send_bytes (backlight lcd0) rs value) lcd.
Proof. intros (Hb & _). rewrite Hb. apply send_writes. Qed.

Lemma init_writes lcd :
  init lcd
  = busWriteAll
      (concat (map (send_bytes (backlight lcd) lcdRegisterCommand)
         [0x03; 0x03; 0x03; 0x02; function_set_command (rows lcd) (font lcd);
          Z.lor lcdDisplayCtrl (displayState lcd); entry_mode_command; lcdClear]))
      lcd.
Proof.
  unfold init, Clear, sendCommand. cbn [map concat]. rewrite app_nil_r.
  pose proof (same_fields_refl lcd) as S0.
  apply (writes_bind_from lcd); [assumption | now apply send_writes_from |].
  intros l1 S1.
  apply (writes_bind_from lcd); [assumption | now apply send_writes_from |].
  intros l2 S2.
  apply (writes_bind_from lcd); [assumption | now apply send_writes_from |].
  intros l3 S3.
  apply (writes_bind_from lcd); [assumption | now apply send_writes_from |].
  intros l4 S4.
  apply (writes_bind_from lcd); [assumption | |].
  { cbv beta. destruct S4 as (Hb & _ & Hr & Hf & _).
    rewrite <- Hr, <- Hf, Hb. apply send_writes. }
  intros l5 S5.
  apply (writes_bind_from lcd); [assumption | |].
  { cbv beta. destruct S5 as (Hb & _ & _ & _ & Hd & _).
    rewrite <- Hd, Hb. apply send_writes. }
  intros l6 S6.
  apply (writes_bind_from lcd); [assumption | now apply send_writes_from |].
  intros l7 S7. now apply send_writes_from.
Qed.

Lemma init_writes_fresh f c r fo :
  valid_config c r fo ->
  init (fresh_lcd f c r fo) = busWriteAll (init_bytes r fo) (fresh_lcd f c r fo).
Proof.
  intros (_ & Hr & Hf & _). rewrite init_writes. f_equal.
  destruct Hr as [-> | [-> | ->]], Hf as [-> | ->]; vm_compute; reflexivity.
Qed.

Lemma init_bytes_length r fo : length (init_bytes r fo) = 32%nat.
Proof. reflexivity. Qed.

(** X7: input/output failures of [New], for valid parameters.  When the
    device cannot be opened, [New] returns the open error and has written
    nothing.  When it opens, [New] tries the 32 bytes of the
    initialisation sequence in order and stops at the first refused
    write: what was accepted before stays written, and no handle is
    returned, the result being the bus write error.  A handle is returned
    exactly when all 32 were accepted. *)
Theorem New_io_failures (host : Host) (bus : string) (address : Z)
    (cols rows font : Z) (isBacklightOn : bool) :
  valid_config cols rows font ->
  let r := New host bus address cols rows font isBacklightOn in
  (host bus address = None -> r = (Err ErrI2COpen, [EvOpen bus address]))
  /\ (forall f, host bus address = Some f ->
        let k := accepted_count f 0 (init_bytes rows font) in
        snd r = EvOpen bus address :: map EvWrite (firstn k (init_bytes rows font))
        /\ (forall i, (i < k)%nat -> f i = false)
        /\ ((k < 32)%nat -> f k = true /\ fst r = Err ErrI2CWrite)
        /\ (k = 32%nat -> exists lcd, fst r = Ok lcd)).
Proof.
  intros Hv r. unfold r, New. pose proof Hv as Hv'.
  apply validateInputs_None_iff in Hv'. rewrite Hv'. unfold i2c_Open.
  split.
  - intros ->. reflexivity.
  - intros f ->. fold (fresh_lcd f cols rows font). cbv zeta.
    pose proof (stops_of_writes _ _ _ (init_writes_fresh f cols rows font Hv)) as S.
    unfold stops_at_first_refusal in S. cbv zeta in S.
    cbn [i2c fresh_lcd wire attempts fault app Nat.add] in S.
    rewrite init_bytes_length in S.
    destruct S as (_ & Hw & Hi & Hr).
    destruct (init (fresh_lcd f cols rows font)) as [[[]|e] lcd'];
      cbn [fst snd] in *; rewrite Hw.
    + split; [reflexivity|]. split; [exact Hi|]. split.
      * intros Hk. destruct Hr as [(Hk' & _) | (_ & _ & He & _)];
          [lia | discriminate He].
      * intros _. eexists. reflexivity.
    + split; [reflexivity|]. split; [exact Hi|]. split.
      * intros Hk. destruct Hr as [(_ & He & _) | (_ & Hf & He & _)];
          [discriminate He|]. injection He as ->. now split.
      * intros Hk. destruct Hr as [(_ & He & _) | (Hk' & _)];
          [discriminate He | lia].
Qed.

Lemma New_io_failures_witness :
  New flaky_host DefaultDevice DefaultAddress 16 2 Font5x8 true
  = (Err ErrI2CWrite,
     [EvOpen DefaultDevice DefaultAddress; EvWrite 0x04; EvWrite 0x00])
  /\ snd (New flaky_host DefaultDevice DefaultAddress 16 2 Font5x8 true)
     = EvOpen DefaultDevice DefaultAddress
       :: map EvWrite (firstn (accepted_count third_write_fails 0 (init_bytes 2 Font5x8))
                              (init_bytes 2 Font5x8)).
Proof.
  split; [reflexivity|].
  refine (proj1 (proj2 (New_io_failures flaky_host DefaultDevice DefaultAddress
                          16 2 Font5x8 true _) third_write_fails eq_refl)).
  unfold valid_config. repeat split; auto. discriminate.
Defined.

(** ** Toggles of the display control *)

Lemma toggle_spec_of (op : M unit) (bit : Z) :
  In bit control_bits ->
  (forall lcd,
     op lcd = sendCommand (Z.lor lcdDisplayCtrl (toggled bit (displayState lcd)))
                (set_displayState (toggled bit (displayState lcd)) lcd)) ->
  toggle_spec op bit.
Proof.
  intros Hbit Hop lcd Hds. cbv zeta.
  assert (C : forall ds, is_byte ds -> toggle_check bit ds = true).
  { unfold control_bits in Hbit. simpl in Hbit.
    destruct Hbit as [<- | [<- | [<- | []]]];
      apply byte_cases; vm_compute; reflexivity. }
  assert (F : forall l, is_byte (displayState l) ->
            same_fields (set_displayState (toggled bit (displayState l)) l)
                        (snd (op l))).
  { intros l _. rewrite Hop. apply sendCommand_fields. }
  pose proof (C _ Hds) as C1. unfold toggle_check in C1.
  repeat (apply andb_prop in C1; destruct C1 as [C1 ?]).
  repeat match goal with
         | H : (_ =? _) = true |- _ => apply Z.eqb_eq in H
         | H : (_ <=? _) = true |- _ => apply Z.leb_le in H
         | H : (_ <? _) = true |- _ => apply Z.ltb_lt in H
         end.
  destruct (F lcd Hds) as (Eb & Ec & Er & Ef & Ed & _).
  cbn [backlight cols rows font displayState set_displayState] in Eb, Ec, Er, Ef, Ed.
  assert (Hds1 : is_byte (displayState (snd (op lcd)))).
  { rewrite <- Ed. unfold is_byte. lia. }
  destruct (F _ Hds1) as (Eb' & Ec' & Er' & Ef' & Ed' & _).
  cbn [backlight cols rows font displayState set_displayState] in Eb', Ec', Er', Ef', Ed'.
  split; [congruence|]. split; [rewrite <- Ed', <- Ed; assumption|].
  split; [congruence|]. split; [congruence|]. split; [congruence|].
  split; [congruence|].
  intros Hh Hbl. rewrite Hop. unfold sendCommand.
  match goal with H : toggled bit _ = Z.lxor _ bit |- _ => rewrite <- H end.
  rewrite <- send_bytes_frame by (assumption || (now left) || (unfold is_byte; lia)).
  apply (send_emits _ _ (set_displayState _ lcd)). exact Hh.
Qed.

(** X8: [ToggleDisplay], [ToggleCursor] and [ToggleBlink] each flip their
    own bit of the stored display state (0x04, 0x02, 0x01) and leave the
    rest of the handle alone, send [lcdDisplayCtrl | displayState] for the
    new state as one command, and applied twice give the display state
    back; the stored state changes even when the bus refuses the
    command. *)
Theorem display_toggles :
  toggle_spec ToggleDisplay lcdDisplayOn
  /\ toggle_spec ToggleCursor lcdDisplayCursorOn
  /\ toggle_spec ToggleBlink lcdDisplayBlinkOn.
Proof.
  split; [|split]; apply toggle_spec_of;
    try solve [ unfold control_bits; simpl; tauto ]; intros lcd.
  - unfold ToggleDisplay, toggled. destruct (_ =? _); reflexivity.
  - unfold ToggleCursor, toggled. destruct (_ =? _); reflexivity.
  - unfold ToggleBlink, toggled. destruct (_ =? _); reflexivity.
Qed.

Lemma display_toggles_witness :
  ToggleDisplay sample_lcd
  = (Ok tt, push_bytes [0x0C; 0x08; 0x8C; 0x88] (set_displayState 0x00 sample_lcd))
  /\ displayState (snd (ToggleCursor (snd (ToggleCursor sample_lcd))))
     = displayState sample_lcd.
Proof.
  destruct display_toggles as (Hd & Hc & _).
  split.
  - refine (proj2 (proj2 (proj2 (proj2 (proj2 (proj2 (Hd sample_lcd _)))))) _ _).
    + unfold is_byte, sample_lcd, lcdDisplayOn; simpl; lia.
    + intro n; reflexivity.
    + right; reflexivity.
  - refine (proj1 (proj2 (Hc sample_lcd _))).
    unfold is_byte, sample_lcd, lcdDisplayOn; simpl; lia.
Defined.

(** ** The backlight bit after a backlight call *)

(** X9: after [EnableBacklight], whether or not its own write was
    accepted, every byte a later [send] gets written has the backlight
    bit 0x08 set; after [DisableBacklight] it is clear in every one.
    [send] then tries exactly the frame for that backlight value. *)
Theorem backlight_persists (lcd : LCD) (value rs : Z) :
  is_byte value -> valid_rs rs ->
  (stops_at_first_refusal (send value rs) (snd (EnableBacklight lcd))
     (frame lcdBacklightOn rs value)
   /\ Forall (fun w => Z.land w lcdBacklightOn = lcdBacklightOn)
             (frame lcdBacklightOn rs value))
  /\ (stops_at_first_refusal (send value rs) (snd (DisableBacklight lcd))
        (frame lcdBacklightOff rs value)
      /\ Forall (fun w => Z.land w lcdBacklightOn = 0)
                (frame lcdBacklightOff rs value)).
Proof.
  intros Hv Hrs. split; split.
  - apply stops_of_writes. rewrite send_writes, EnableBacklight_backlight.
    rewrite send_bytes_frame; [reflexivity | now right | assumption | assumption].
  - rewrite <- send_bytes_frame by (assumption || now right).
    apply send_bytes_backlight; [now right | assumption | assumption].
  - apply stops_of_writes. rewrite send_writes, DisableBacklight_backlight.
    rewrite send_bytes_frame; [reflexivity | now left | assumption | assumption].
  - rewrite <- send_bytes_frame by (assumption || now left).
    apply (send_bytes_backlight lcdBacklightOff); [now left | assumption | assumption].
Qed.

Lemma backlight_persists_witness :
  (stops_at_first_refusal (send 0x48 lcdRegisterData)
     (snd (EnableBacklight flaky_lcd)) (frame lcdBacklightOn lcdRegisterData 0x48)
   /\ Forall (fun w => Z.land w lcdBacklightOn = lcdBacklightOn)
             (frame lcdBacklightOn lcdRegisterData 0x48))
  /\ (stops_at_first_refusal (send 0x48 lcdRegisterData)
        (snd (DisableBacklight flaky_lcd)) (frame lcdBacklightOff lcdRegisterData 0x48)
      /\ Forall (fun w => Z.land w lcdBacklightOn = 0)
                (frame lcdBacklightOff lcdRegisterData 0x48)).
Proof.
  apply (backlight_persists flaky_lcd 0x48 lcdRegisterData).
  - unfold is_byte; lia.
  - right; reflexivity.
Defined.

(** ** Parameters [New] accepts *)

(** X10: [validateInputs] accepts exactly eight triples of columns, rows
    and font, and reports the first failing check in the order columns,
    rows, font, font with rows: a bad column count hides every other
    fault, and so on down the order. *)
Theorem validateInputs_cases (c r fo : Z) :
  (validateInputs c r fo = None <-> In (c, r, fo) accepted_configs)
  /\ (c <> 16 -> c <> 20 -> validateInputs c r fo = Some (ErrInvalidCols c))
  /\ (c = 16 \/ c = 20 -> r <> 1 -> r <> 2 -> r <> 4 ->
      validateInputs c r fo = Some (ErrInvalidRows r))
  /\ (c = 16 \/ c = 20 -> r = 1 \/ r = 2 \/ r = 4 ->
      fo <> Font5x8 -> fo <> Font5x10 ->
      validateInputs c r fo = Some (ErrInvalidFont fo))
  /\ (c = 16 \/ c = 20 -> r = 2 \/ r = 4 -> fo = Font5x10 ->
      validateInputs c r fo = Some (ErrFont5x10Rows r)).
Proof.
  split.
  { rewrite validateInputs_None_iff.
    unfold valid_config, accepted_configs, Font5x8, Font5x10, lcdF5x8Dot, lcdF5x10Dot.
    cbn [In]. split.
    - intros ([-> | ->] & [-> | [-> | ->]] & [-> | ->] & Hfr);
        try (specialize (Hfr eq_refl); discriminate Hfr); tauto.
    - intros H.
      repeat (destruct H as [H | H]; [injection H as <- <- <-;
        repeat split; auto; discriminate |]).
      destruct H. }
  unfold validateInputs, Font5x8, Font5x10, lcdF5x8Dot, lcdF5x10Dot.
  destruct (Z.eqb_spec c 16), (Z.eqb_spec c 20),
           (Z.eqb_spec r 1), (Z.eqb_spec r 2), (Z.eqb_spec r 4),
           (Z.eqb_spec fo 0), (Z.eqb_spec fo 4); simpl;
    repeat split; intros; try reflexivity; try lia.
Qed.

(** ** What every handle satisfies *)

Lemma send_keeps_fields value rs : keeps_fields (send value rs).
Proof.
  intros lcd.
  now destruct (io_send (fun _ => True) value rs lcd (Forall_trivial _)).
Qed.

Lemma bind_keeps_fields m1 m2 :
  keeps_fields m1 -> keeps_fields m2 -> keeps_fields (m1 ;; m2).
Proof.
  intros H1 H2 lcd. unfold bind. specialize (H1 lcd).
  destruct (m1 lcd) as [[[]|e] lcd1]; simpl in *.
  - eapply same_fields_trans; [exact H1 | apply H2].
  - assumption.
Qed.

Lemma sendAll_keeps_fields bs : keeps_fields (sendAll bs).
Proof.
  induction bs as [|b tl IH]; cbn [sendAll].
  - intros lcd. apply same_fields_refl.
  - apply bind_keeps_fields; [apply send_keeps_fields | assumption].
Qed.

Lemma SetCursor_keeps_fields row col : keeps_fields (SetCursor row col).
Proof.
  intros lcd. unfold SetCursor.
  destruct ((col <? 0) || (col >=? cols lcd)); [apply same_fields_refl|].
  destruct row as [|[[|[]|]|[|[]|]|]|];
    try apply same_fields_refl; apply send_keeps_fields.
Qed.

Lemma handle_ok_same a b : same_fields a b -> handle_ok a -> handle_ok b.
Proof.
  intros (Hb & Hc & Hr & Hf & Hd & _) (H1 & H2 & H3). unfold handle_ok.
  now rewrite <- Hb, <- Hc, <- Hr, <- Hf, <- Hd.
Qed.

Lemma handle_ok_backlight b lcd :
  valid_backlight b -> handle_ok lcd -> handle_ok (set_backlight b lcd).
Proof.
  intros Hb (H1 & _ & H3). unfold handle_ok.
  split; [exact H1 | split; [exact Hb | exact H3]].
Qed.

Lemma state_range_switched ds bit on :
  0 <= ds < 8 -> In bit control_bits -> 0 <= switched bit on ds < 8.
Proof.
  intros Hds Hbit.
  assert (H : ds = 0 \/ ds = 1 \/ ds = 2 \/ ds = 3
              \/ ds = 4 \/ ds = 5 \/ ds = 6 \/ ds = 7) by lia.
  unfold control_bits in Hbit. simpl in Hbit.
  destruct Hbit as [<- | [<- | [<- | []]]]; destruct on;
    repeat (destruct H as [-> | H]); try subst ds; vm_compute; split; congruence.
Qed.

Lemma handle_ok_switch bit on command lcd :
  In bit control_bits -> handle_ok lcd ->
  handle_ok (snd (sendCommand command
                    (set_displayState (switched bit on (displayState lcd)) lcd))).
Proof.
  intros Hbit (H1 & H2 & H3).
  eapply handle_ok_same; [apply sendCommand_fields|].
  unfold handle_ok. cbn [cols rows font backlight displayState set_displayState].
  split; [exact H1 | split; [exact H2 | now apply state_range_switched]].
Qed.

Lemma run_handle_ok c lcd : handle_ok lcd -> handle_ok (snd (run c lcd)).
Proof.
  intros H.
  assert (K : forall m, keeps_fields m -> handle_ok (snd (m lcd))).
  { intros m Hm. eapply handle_ok_same; [apply Hm | exact H]. }
  assert (B : forall b, valid_backlight b ->
                handle_ok (snd (busWrite b (set_backlight b lcd)))).
  { intros b Hb. eapply handle_ok_same; [apply busWrite_fields|].
    now apply handle_ok_backlight. }
  assert (I4 : In lcdDisplayOn control_bits) by (simpl; tauto).
  assert (I2 : In lcdDisplayCursorOn control_bits) by (simpl; tauto).
  assert (I1 : In lcdDisplayBlinkOn control_bits) by (simpl; tauto).
  destruct c; cbn [run].
  - apply K, send_keeps_fields.
  - apply K, send_keeps_fields.
  - apply K. unfold UploadCustomChar. cbv zeta.
    apply bind_keeps_fields; [apply send_keeps_fields | apply sendAll_keeps_fields].
  - apply K, SetCursor_keeps_fields.
  - apply K. unfold Print, Write.
    apply bind_keeps_fields; [apply SetCursor_keeps_fields | apply sendAll_keeps_fields].
  - apply K. unfold PrintRAW, WriteRAW.
    apply bind_keeps_fields; [apply SetCursor_keeps_fields | apply send_keeps_fields].
  - apply K, sendAll_keeps_fields.
  - apply K, send_keeps_fields.
  - apply (B lcdBacklightOn). now right.
  - apply (B lcdBacklightOff). now left.
  - unfold ToggleBacklight. destruct (_ =? _).
    + apply (B lcdBacklightOn). now right.
    + apply (B lcdBacklightOff). now left.
  - now apply (handle_ok_switch lcdDisplayOn true).
  - now apply (handle_ok_switch lcdDisplayOn false).
  - unfold ToggleDisplay. destruct (_ =? _).
    + now apply (handle_ok_switch lcdDisplayOn false).
    + now apply (handle_ok_switch lcdDisplayOn true).
  - now apply (handle_ok_switch lcdDisplayCursorOn true).
  - now apply (handle_ok_switch lcdDisplayCursorOn false).
  - unfold ToggleCursor. destruct (_ =? _).
    + now apply (handle_ok_switch lcdDisplayCursorOn false).
    + now apply (handle_ok_switch lcdDisplayCursorOn true).
  - now apply (handle_ok_switch lcdDisplayBlinkOn true).
  - now apply (handle_ok_switch lcdDisplayBlinkOn false).
  - unfold ToggleBlink. destruct (_ =? _).
    + now apply (handle_ok_switch lcdDisplayBlinkOn false).
    + now apply (handle_ok_switch lcdDisplayBlinkOn true).
Qed.

Lemma New_handle_ok host bus address c r fo on lcd :
  fst (New host bus address c r fo on) = Ok lcd -> handle_ok lcd.
Proof.
  unfold New. destruct (validateInputs c r fo) eqn:E; [discriminate|].
  apply validateInputs_None_iff in E.
  unfold i2c_Open. destruct (host bus address) as [f|]; [|discriminate].
  fold (fresh_lcd f c r fo).
  destruct (io_init_fresh f c r fo E) as (Hs & _).
  destruct (init (fresh_lcd f c r fo)) as [[[]|e] lcd']; [|discriminate].
  cbn [fst snd] in *. intros H. injection H as <-.
  assert (H0 : handle_ok lcd').
  { eapply handle_ok_same; [exact Hs|]. unfold handle_ok.
    cbn [cols rows font backlight displayState fresh_lcd].
    split; [exact E | split; [now left | vm_compute; split; congruence]]. }
  destruct on; [|exact H0]. apply handle_ok_backlight; [now right | exact H0].
Qed.

(** X11: every handle the driver can produce (returned by [New], then
    used through any exported calls, whatever they returned) has one of
    the accepted geometries and fonts, a backlight byte of 0x00 or 0x08,
    and a display state made of the three control bits only; the columns,
    rows and font are those given to [New]. *)
Theorem reachable_invariant (lcd : LCD) :
  reachable lcd ->
  valid_config (cols lcd) (rows lcd) (font lcd)
  /\ valid_backlight (backlight lcd)
  /\ 0 <= displayState lcd < 8.
Proof.
  induction 1 as [host bus address c r fo on lcd H | lcd c _ IH].
  - eapply New_handle_ok; eassumption.
  - now apply run_handle_ok.
Qed.

Lemma reachable_invariant_witness :
  valid_config (cols (snd (run CallToggleBacklight (snd (run CallCursorOn constructed_lcd)))))
               (rows (snd (run CallToggleBacklight (snd (run CallCursorOn constructed_lcd)))))
               (font (snd (run CallToggleBacklight (snd (run CallCursorOn constructed_lcd)))))
  /\ valid_backlight
       (backlight (snd (run CallToggleBacklight (snd (run CallCursorOn constructed_lcd)))))
  /\ 0 <= displayState (snd (run CallToggleBacklight (snd (run CallCursorOn constructed_lcd))))
       < 8.
Proof.
  apply (reachable_invariant
           (snd (run CallToggleBacklight (snd (run CallCursorOn constructed_lcd))))).
  apply reach_call. apply reach_call.
  apply (reach_New healthy_host DefaultDevice DefaultAddress 16 2 Font5x8 true).
  reflexivity.
Defined.

(** ** The walking glyph *)

Lemma wrap_int_small bits z :
  bits = 32 \/ bits = 64 -> int_range bits z -> wrap_int bits z = z.
Proof.
  unfold int_range, wrap_int. intros [-> | ->] H.
  - change (2 ^ (32 - 1)) with 2147483648 in *. change (2 ^ 32) with 4294967296.
    rewrite Z.mod_small; lia.
  - change (2 ^ (64 - 1)) with 9223372036854775808 in *.
    change (2 ^ 64) with 18446744073709551616.
    rewrite Z.mod_small; lia.
Qed.

Lemma walk_step_between tb tf dir cur :
  tf < tb -> dir = 1 \/ dir = -1 -> tf <= cur <= tb ->
  (fst (walk_step tb tf (dir, cur)) = 1 \/ fst (walk_step tb tf (dir, cur)) = -1)
  /\ tf <= snd (walk_step tb tf (dir, cur)) <= tb.
Proof.
  intros Hlt [-> | ->] Hc; unfold walk_step; cbv iota beta zeta.
  - destruct (Z.eqb_spec cur tb); cbn [fst snd]; lia.
  - destruct (Z.eqb_spec cur tf); cbn [fst snd]; lia.
Qed.

Lemma MakeStep_walk bits wk lcd :
  bits = 32 \/ bits = 64 ->
  int_range bits (ctulhu.turnForwardCol wk) ->
  int_range bits (ctulhu.turnBackCol wk) ->
  ctulhu.turnForwardCol wk < ctulhu.turnBackCol wk ->
  walking wk ->
  let wk' := fst (ctulhu.MakeStep bits wk lcd) in
  (ctulhu.direction wk', ctulhu.curCol wk')
  = walk_step (ctulhu.turnBackCol wk) (ctulhu.turnForwardCol wk)
              (ctulhu.direction wk, ctulhu.curCol wk)
  /\ same_walk wk wk' /\ walking wk'.
Proof.
  intros Hb Hf Ht Hlt (Hd & Hc). cbv zeta.
  pose proof (walk_step_between _ _ _ _ Hlt Hd Hc) as (Hd' & Hc').
  unfold ctulhu.MakeStep. cbv zeta. cbn [fst ctulhu.direction ctulhu.curCol].
  unfold walk_step in *. cbv zeta beta iota in *. cbn [fst snd] in Hd', Hc'.
  set (dir' := match ctulhu.direction wk with
               | 1 => _ | -1 => _ | _ => _ end) in *.
  rewrite wrap_int_small; [| assumption | unfold int_range in *; lia].
  split; [reflexivity|]. split.
  - unfold same_walk. cbn. tauto.
  - unfold walking. cbn. tauto.
Qed.

Lemma steps_walk bits n : forall wk lcd,
  bits = 32 \/ bits = 64 ->
  int_range bits (ctulhu.turnForwardCol wk) ->
  int_range bits (ctulhu.turnBackCol wk) ->
  ctulhu.turnForwardCol wk < ctulhu.turnBackCol wk ->
  walking wk ->
  let wk' := fst (steps bits n wk lcd) in
  (ctulhu.direction wk', ctulhu.curCol wk')
  = walk (ctulhu.turnBackCol wk) (ctulhu.turnForwardCol wk) n
         (ctulhu.direction wk, ctulhu.curCol wk)
  /\ same_walk wk wk' /\ walking wk'.
Proof.
  induction n as [|n IH]; intros wk lcd Hb Hf Ht Hlt Hw; cbv zeta; cbn [steps walk].
  - split; [reflexivity|]. split; [unfold same_walk; tauto | assumption].
  - pose proof (MakeStep_walk bits wk lcd Hb Hf Ht Hlt Hw) as (E & S & W).
    cbv zeta in E, S, W.
    destruct (ctulhu.MakeStep bits wk lcd) as [wk1 lcd1]. cbn [fst] in E, S, W.
    destruct S as (S1 & S2 & S3 & S4 & S5).
    specialize (IH wk1 lcd1 Hb). rewrite <- S1, <- S2 in IH.
    specialize (IH Hf Ht Hlt W). cbv zeta in IH.
    destruct IH as (E' & (T1 & T2 & T3 & T4 & T5) & W').
    rewrite E in E'. split; [exact E'|]. split; [|exact W'].
    unfold same_walk. repeat split; congruence.
Qed.

(** X12: a walker that faces one way or the other and stands between its
    two turning columns, the forward one strictly left of the back one,
    stays between them and keeps facing one way or the other for any
    number of [MakeStep] calls, whatever the display does; its row,
    turning columns and glyph location never change. *)
Theorem walker_stays_between (bits : Z) (n : nat)
    (wk : ctulhu.walkingCthulhu) (lcd : LCD) :
  bits = 32 \/ bits = 64 ->
  int_range bits (ctulhu.turnForwardCol wk) ->
  int_range bits (ctulhu.turnBackCol wk) ->
  ctulhu.turnForwardCol wk < ctulhu.turnBackCol wk ->
  ctulhu.direction wk = 1 \/ ctulhu.direction wk = -1 ->
  ctulhu.turnForwardCol wk <= ctulhu.curCol wk <= ctulhu.turnBackCol wk ->
  let wk' := fst (steps bits n wk lcd) in
  (ctulhu.direction wk' = 1 \/ ctulhu.direction wk' = -1)
  /\ ctulhu.turnForwardCol wk <= ctulhu.curCol wk' <= ctulhu.turnBackCol wk
  /\ ctulhu.turnBackCol wk' = ctulhu.turnBackCol wk
  /\ ctulhu.turnForwardCol wk' = ctulhu.turnForwardCol wk
  /\ ctulhu.curRow wk' = ctulhu.curRow wk
  /\ ctulhu.charLocation wk' = ctulhu.charLocation wk.
Proof.
  intros Hb Hf Ht Hlt Hd Hc.
  pose proof (steps_walk bits n wk lcd Hb Hf Ht Hlt (conj Hd Hc)) as (_ & S & W).
  cbv zeta in *. destruct S as (S1 & S2 & S3 & S4 & S5). destruct W as (W1 & W2).
  rewrite <- S1, <- S2 in W2.
  repeat split; try (symmetry; assumption); try apply W2. exact W1.
Qed.

Lemma walker_stays_between_witness :
  (ctulhu.direction (fst (steps 64 7 demo_walker constructed_lcd)) = 1
   \/ ctulhu.direction (fst (steps 64 7 demo_walker constructed_lcd)) = -1)
  /\ 0 <= ctulhu.curCol (fst (steps 64 7 demo_walker constructed_lcd)) <= 5.
Proof.
  pose proof (walker_stays_between 64 7 demo_walker constructed_lcd) as H.
  cbv zeta in H.
  refine ((fun P => conj (proj1 P) (proj1 (proj2 P))) (H _ _ _ _ _ _)).
  - right; reflexivity.
  - unfold int_range; simpl; lia.
  - unfold int_range; simpl; lia.
  - simpl; lia.
  - left; reflexivity.
  - simpl; lia.
Defined.

Lemma walk_add tb tf a : forall b s,
  walk tb tf (a + b) s = walk tb tf b (walk tb tf a s).
Proof.
  induction a as [|a IH]; intros b s; cbn [Nat.add walk]; [reflexivity | apply IH].
Qed.

Lemma state_of_step tb tf p :
  tf < tb -> 0 <= p < 2 * (tb - tf) ->
  walk_step tb tf (state_of tb tf p)
  = state_of tb tf ((p + 1) mod (2 * (tb - tf))).
Proof.
  intros Hlt Hp.
  assert (Hm : (p + 1) mod (2 * (tb - tf))
               = if p + 1 =? 2 * (tb - tf) then 0 else p + 1).
  { destruct (Z.eqb_spec (p + 1) (2 * (tb - tf))) as [E | E].
    - rewrite E. apply Z.mod_same. lia.
    - apply Z.mod_small. lia. }
  rewrite Hm. unfold state_of, walk_step.
  destruct (Z.eqb_spec p 0) as [-> | Hp0].
  - destruct (Z.eqb_spec (0 + 1) (2 * (tb - tf))); [lia|].
    destruct (Z.eqb_spec (0 + 1) 0); [lia|].
    destruct (Z.leb_spec (0 + 1) (tb - tf)); [|lia].
    rewrite Z.eqb_refl. f_equal.
  - destruct (Z.leb_spec p (tb - tf)).
    + destruct (Z.eqb_spec (tf + p) tb) as [E | E].
      * assert (p = tb - tf) by lia. subst p.
        destruct (Z.eqb_spec (tb - tf + 1) (2 * (tb - tf))).
        -- rewrite Z.eqb_refl. f_equal. lia.
        -- destruct (Z.eqb_spec (tb - tf + 1) 0); [lia|].
           destruct (Z.leb_spec (tb - tf + 1) (tb - tf)); [lia|]. f_equal. lia.
      * destruct (Z.eqb_spec (p + 1) (2 * (tb - tf))); [lia|].
        destruct (Z.eqb_spec (p + 1) 0); [lia|].
        destruct (Z.leb_spec (p + 1) (tb - tf)); [|lia]. f_equal. lia.
    + destruct (Z.eqb_spec (tf + 2 * (tb - tf) - p) tf); [lia|].
      destruct (Z.eqb_spec (p + 1) (2 * (tb - tf))).
      * rewrite Z.eqb_refl. f_equal. lia.
      * destruct (Z.eqb_spec (p + 1) 0); [lia|].
        destruct (Z.leb_spec (p + 1) (tb - tf)); [lia|]. f_equal. lia.
Qed.

Lemma walk_state_of tb tf k : forall p,
  tf < tb -> 0 <= p < 2 * (tb - tf) ->
  walk tb tf k (state_of tb tf p)
  = state_of tb tf ((p + Z.of_nat k) mod (2 * (tb - tf))).
Proof.
  induction k as [|k IH]; intros p Hlt Hp; cbn [walk].
  - rewrite Z.add_0_r, Z.mod_small by lia. reflexivity.
  - rewrite state_of_step by assumption.
    rewrite IH; [| assumption | apply Z.mod_pos_bound; lia].
    f_equal. rewrite Zplus_mod_idemp_l. f_equal. lia.
Qed.

Lemma walk_step_on_round tb tf dir cur :
  tf < tb -> dir = 1 \/ dir = -1 -> tf <= cur <= tb ->
  exists p, 0 <= p < 2 * (tb - tf)
            /\ walk_step tb tf (dir, cur) = state_of tb tf p.
Proof.
  intros Hlt [-> | ->] Hc; unfold walk_step, state_of.
  - destruct (Z.eqb_spec cur tb) as [-> | E].
    + exists ((tb - tf + 1) mod (2 * (tb - tf))).
      split; [apply Z.mod_pos_bound; lia|].
      destruct (Z.eq_dec (tb - tf) 1) as [E1 | E1].
      * rewrite E1. change ((1 + 1) mod (2 * 1)) with 0. rewrite Z.eqb_refl.
        f_equal. lia.
      * rewrite Z.mod_small by lia.
        destruct (Z.eqb_spec (tb - tf + 1) 0); [lia|].
        destruct (Z.leb_spec (tb - tf + 1) (tb - tf)); [lia|]. f_equal. lia.
    + exists (cur + 1 - tf). split; [lia|].
      destruct (Z.eqb_spec (cur + 1 - tf) 0); [lia|].
      destruct (Z.leb_spec (cur + 1 - tf) (tb - tf)); [|lia]. f_equal. lia.
  - destruct (Z.eqb_spec cur tf) as [-> | E].
    + exists 1. split; [lia|].
      destruct (Z.eqb_spec 1 0); [lia|].
      destruct (Z.leb_spec 1 (tb - tf)); [|lia]. reflexivity.
    + destruct (Z.eq_dec cur (tf + 1)) as [-> | E1].
      * exists 0. split; [lia|]. rewrite Z.eqb_refl. f_equal. lia.
      * exists (2 * (tb - tf) - (cur - 1 - tf)). split; [lia|].
        destruct (Z.eqb_spec (2 * (tb - tf) - (cur - 1 - tf)) 0); [lia|].
        destruct (Z.leb_spec (2 * (tb - tf) - (cur - 1 - tf)) (tb - tf)); [lia|].
        f_equal. lia.
Qed.

Lemma walk_period tb tf n dir cur :
  tf < tb -> dir = 1 \/ dir = -1 -> tf <= cur <= tb -> (1 <= n)%nat ->
  walk tb tf (n + 2 * Z.to_nat (tb - tf)) (dir, cur) = walk tb tf n (dir, cur).
Proof.
  intros Hlt Hd Hc Hn. destruct n as [|n]; [lia|].
  cbn [Nat.add walk].
  destruct (walk_step_on_round tb tf dir cur Hlt Hd Hc) as (p & Hp & ->).
  rewrite walk_add, !walk_state_of; try assumption.
  - f_equal. rewrite Zplus_mod_idemp_l.
    replace (Z.of_nat (2 * Z.to_nat (tb - tf))) with (1 * (2 * (tb - tf))) by lia.
    apply Z.mod_add. lia.
  - apply Z.mod_pos_bound. lia.
Qed.

(** X13: such a walker goes back and forth with period [2 * (tb - tf)],
    [tf] and [tb] being its forward and back turning columns: from the
    first step on, its column and direction after [n + 2 * (tb - tf)]
    calls of [MakeStep] are those after [n] calls. *)
Theorem walker_period (bits : Z) (n : nat)
    (wk : ctulhu.walkingCthulhu) (lcd : LCD) :
  bits = 32 \/ bits = 64 ->
  int_range bits (ctulhu.turnForwardCol wk) ->
  int_range bits (ctulhu.turnBackCol wk) ->
  ctulhu.turnForwardCol wk < ctulhu.turnBackCol wk ->
  ctulhu.direction wk = 1 \/ ctulhu.direction wk = -1 ->
  ctulhu.turnForwardCol wk <= ctulhu.curCol wk <= ctulhu.turnBackCol wk ->
  (1 <= n)%nat ->
  let period :=
    (2 * Z.to_nat (ctulhu.turnBackCol wk - ctulhu.turnForwardCol wk))%nat in
  ctulhu.curCol (fst (steps bits (n + period) wk lcd))
  = ctulhu.curCol (fst (steps bits n wk lcd))
  /\ ctulhu.direction (fst (steps bits (n + period) wk lcd))
     = ctulhu.direction (fst (steps bits n wk lcd)).
Proof.
  intros Hb Hf Ht Hlt Hd Hc Hn period.
  pose proof (steps_walk bits (n + period) wk lcd Hb Hf Ht Hlt (conj Hd Hc)) as (E1 & _).
  pose proof (steps_walk bits n wk lcd Hb Hf Ht Hlt (conj Hd Hc)) as (E2 & _).
  cbv zeta in E1, E2. unfold period in E1.
  rewrite walk_period in E1 by assumption. rewrite <- E2 in E1.
  injection E1 as Ed Ec. now split.
Qed.

Lemma walker_period_witness :
  ctulhu.curCol (fst (steps 64 (3 + 10) demo_walker constructed_lcd))
  = ctulhu.curCol (fst (steps 64 3 demo_walker constructed_lcd))
  /\ ctulhu.direction (fst (steps 64 (3 + 10) demo_walker constructed_lcd))
     = ctulhu.direction (fst (steps 64 3 demo_walker constructed_lcd)).
Proof.
  apply (walker_period 64 3 demo_walker constructed_lcd).
  - right; reflexivity.
  - unfold int_range; simpl; lia.
  - unfold int_range; simpl; lia.
  - simpl; lia.
  - left; reflexivity.
  - simpl; lia.
  - lia.
Defined.

Lemma PrintRAW_writes raw row col lcd :
  0 <= row <= 3 -> 0 <= col < cols lcd -> cols lcd <= 20 ->
  PrintRAW raw row col lcd
  = busWriteAll
      (send_bytes (backlight lcd) lcdRegisterCommand (base_address row + col)
       ++ send_bytes (backlight lcd) lcdRegisterData raw) lcd.
Proof.
  intros Hr Hc Hw. unfold PrintRAW, WriteRAW, sendData. apply writes_bind.
  - now apply SetCursor_writes.
  - intros lcd' S. now apply send_writes_from.
Qed.


Lemma cursor_frame bl row col :
  valid_backlight bl -> 0 <= row <= 3 -> 0 <= col < 20 ->
  send_bytes bl lcdRegisterCommand (base_address row + col)
  = frame bl lcdRegisterCommand (base_address row + col).
Proof.
  intros Hbl Hr Hc. apply send_bytes_frame; [assumption | now left |].
  pose proof (cursor_address_range row col Hr Hc). unfold is_byte. lia.
Qed.


(** X14: one [MakeStep] of a walker standing on the display (row 0..3,
    turning columns inside the display), on a bus that accepts its
    writes: it blanks the cell it stands on with a space, moves one
    column in its direction (turning first when it stands on a turning
    column), and draws the glyph byte there; sixteen bytes in all, the
    address and data frames of the old cell and then of the new one. *)
Theorem MakeStep_erases_and_draws (bits : Z)
    (wk : ctulhu.walkingCthulhu) (lcd : LCD) :
  bits = 32 \/ bits = 64 ->
  Healthy (i2c lcd) -> valid_backlight (backlight lcd) -> cols lcd <= 20 ->
  0 <= ctulhu.curRow wk <= 3 ->
  0 <= ctulhu.turnForwardCol wk ->
  ctulhu.turnForwardCol wk < ctulhu.turnBackCol wk ->
  ctulhu.turnBackCol wk < cols lcd ->
  ctulhu.direction wk = 1 \/ ctulhu.direction wk = -1 ->
  ctulhu.turnForwardCol wk <= ctulhu.curCol wk <= ctulhu.turnBackCol wk ->
  is_byte (ctulhu.charLocation wk) ->
  let bl := backlight lcd in
  let row := ctulhu.curRow wk in
  let cur := ctulhu.curCol wk in
  let cur' := snd (walk_step (ctulhu.turnBackCol wk) (ctulhu.turnForwardCol wk)
                             (ctulhu.direction wk, cur)) in
  ctulhu.curCol (fst (ctulhu.MakeStep bits wk lcd)) = cur'
  /\ (cur' = cur + 1 \/ cur' = cur - 1)
  /\ snd (ctulhu.MakeStep bits wk lcd)
     = push_bytes
         (frame bl lcdRegisterCommand (base_address row + cur)
          ++ frame bl lcdRegisterData 0x20
          ++ frame bl lcdRegisterCommand (base_address row + cur')
          ++ frame bl lcdRegisterData (ctulhu.charLocation wk)) lcd.
Proof.
  intros Hb Hh Hbl Hw Hr Hf Hlt Ht Hd Hc Hloc bl row cur cur'.
  assert (Hir : forall z, -1 <= z <= 20 -> int_range bits z).
  { intros z Hz. unfold int_range. destruct Hb as [-> | ->].
    - change (2 ^ (32 - 1)) with 2147483648. lia.
    - change (2 ^ (64 - 1)) with 9223372036854775808. lia. }
  assert (Hif : int_range bits (ctulhu.turnForwardCol wk)) by (apply Hir; lia).
  assert (Hit : int_range bits (ctulhu.turnBackCol wk)) by (apply Hir; lia).
  pose proof (MakeStep_walk bits wk lcd Hb Hif Hit Hlt (conj Hd Hc))
    as (E & _ & (_ & Hc')).
  clear Hir Hif Hit.
  cbv zeta in E, Hc'. unfold walk_step in E. cbv beta iota zeta in E.
  pose proof (f_equal snd E) as Ec. cbn [snd] in Ec.
  assert (Ecur : ctulhu.curCol (fst (ctulhu.MakeStep bits wk lcd)) = cur').
  { unfold cur', cur. rewrite Ec. unfold walk_step. reflexivity. }
  split; [exact Ecur|]. split.
  { unfold cur', cur, walk_step. cbv zeta. cbn [snd].
    destruct Hd as [-> | ->]; cbv iota.
    - destruct (ctulhu.curCol wk =? ctulhu.turnBackCol wk); lia.
    - destruct (ctulhu.curCol wk =? ctulhu.turnForwardCol wk); lia. }
  clear Hc'.
  assert (Hc' : ctulhu.turnForwardCol wk <= cur' <= ctulhu.turnBackCol wk).
  { apply (walk_step_between _ _ _ _ Hlt Hd Hc). }
  assert (Ew : wrap_int bits (ctulhu.curCol wk
                 + match ctulhu.direction wk with
                   | 1 => if ctulhu.curCol wk =? ctulhu.turnBackCol wk
                          then -1 else ctulhu.direction wk
                   | -1 => if ctulhu.curCol wk =? ctulhu.turnForwardCol wk
                           then 1 else ctulhu.direction wk
                   | _ => ctulhu.direction wk
                   end) = cur').
  { rewrite <- Ecur. reflexivity. }
  unfold ctulhu.MakeStep. cbv zeta. cbn [snd]. rewrite Ew.
  fold row. fold cur.
  assert (P1 : Print " " row cur lcd
               = (Ok tt, push_bytes (frame bl lcdRegisterCommand (base_address row + cur)
                                     ++ frame bl lcdRegisterData 0x20) lcd)).
  { rewrite Print_writes by (unfold row, cur; lia).
    change (map to_byte (runes " ")) with [0x20]. cbn [map concat].
    rewrite app_nil_r, cursor_frame by (assumption || (unfold row, cur; lia)).
    rewrite (send_bytes_frame _ lcdRegisterData 0x20);
      [| assumption | now right | unfold is_byte; lia ].
    now apply busWriteAll_emits. }
  rewrite P1. cbn [snd].
  set (l1 := push_bytes (frame bl lcdRegisterCommand (base_address row + cur)
                         ++ frame bl lcdRegisterData 0x20) lcd).
  assert (Hl1 : Healthy (i2c l1)) by (apply push_bytes_healthy; exact Hh).
  rewrite PrintRAW_writes;
    [| unfold row; lia | change (cols l1) with (cols lcd); lia
     | change (cols l1) with (cols lcd); lia ].
  change (backlight l1) with bl.
  rewrite cursor_frame by (assumption || (unfold row; lia)).
  rewrite (send_bytes_frame _ lcdRegisterData (ctulhu.charLocation wk));
    [| assumption | now right | assumption ].
  pose proof (busWriteAll_emits
                (frame bl lcdRegisterCommand (base_address row + cur')
                 ++ frame bl lcdRegisterData (ctulhu.charLocation wk))
                l1 Hl1) as P2.
  unfold emits in P2. rewrite P2. cbn [snd]. unfold l1.
  rewrite push_bytes_app, <- !app_assoc. reflexivity.
Qed.

Lemma MakeStep_erases_and_draws_witness :
  ctulhu.curCol (fst (ctulhu.MakeStep 64 demo_walker sample_lcd)) = 1
  /\ snd (ctulhu.MakeStep 64 demo_walker sample_lcd)
     = push_bytes ([0xCC; 0xC8; 0x0C; 0x08] ++ [0x2D; 0x29; 0x0D; 0x09]
                   ++ [0xCC; 0xC8; 0x1C; 0x18] ++ [0x0D; 0x09; 0x0D; 0x09])
                  sample_lcd.
Proof.
  pose proof (MakeStep_erases_and_draws 64 demo_walker sample_lcd) as H.
  cbv zeta in H.
  refine ((fun P => conj (proj1 P) (proj2 (proj2 P))) (H _ _ _ _ _ _ _ _ _ _ _)).
  - right; reflexivity.
  - intro n; reflexivity.
  - right; reflexivity.
  - simpl; lia.
  - simpl; lia.
  - simpl; lia.
  - simpl; lia.
  - simpl; lia.
  - left; reflexivity.
  - simpl; lia.
  - unfold is_byte; simpl; lia.
Defined.




(** ** The earlier driver *)

Lemma legacy_init_emits lcd :
  Healthy (i2c lcd) -> backlight lcd = 0 ->
  emits legacy.init lcd legacy_init_bytes.
Proof.
  intros H Hb. unfold legacy.init, Clear, sendCommand, legacy_init_bytes.
  apply (emits_bind _ _ _ [0x30] ([0x30; 0x30; 0x20] ++ _));
    [now apply busWrite_emits|].
  apply (emits_bind _ _ _ [0x30] ([0x30; 0x20] ++ _));
    [apply busWrite_emits; intro; simpl; auto|].
  apply (emits_bind _ _ _ [0x30] ([0x20] ++ _));
    [apply busWrite_emits; intro; simpl; auto|].
  apply (emits_bind _ _ _ [0x20] _);
    [apply busWrite_emits; intro; simpl; auto|].
  assert (S : forall v l, Healthy (i2c l) -> backlight l = 0 -> is_byte v ->
              emits (send v lcdRegisterCommand) l (frame 0 lcdRegisterCommand v)).
  { intros v l Hl Hbl Hv. rewrite <- send_bytes_frame by (assumption || now left).
    rewrite <- Hbl. now apply send_emits. }
  apply emits_bind; [apply S; [intro; simpl; auto | exact Hb | vm_compute; split; congruence]|].
  apply emits_bind; [apply S; [intro; simpl; auto | exact Hb | vm_compute; split; congruence]|].
  apply emits_bind; [apply S; [intro; simpl; auto | exact Hb | vm_compute; split; congruence]|].
  apply S; [intro; simpl; auto | exact Hb | vm_compute; split; congruence].
Qed.

(** X16: the earlier [New] checks nothing: for any column and row counts
    whatever, on a host whose device opens and accepts its writes, it
    returns a handle holding them and has written the same 20 bytes: the
    raw bytes 0x30, 0x30, 0x30, 0x20 (enable bit clear in each, so no
    latch pulse), then the frames of 0x28 (two lines, 5x8, for every row
    count), 0x0C, 0x06 and 0x01. *)
Theorem legacy_New_sequence (host : Host) (bus : string) (address : Z)
    (c r : Z) (isBacklightOn : bool) (f : nat -> bool) :
  host bus address = Some f -> (forall n, f n = false) ->
  (exists lcd,
     legacy.New host bus address c r isBacklightOn
     = (Ok lcd, EvOpen bus address :: map EvWrite legacy_init_bytes)
     /\ cols lcd = c /\ rows lcd = r
     /\ backlight lcd = (if isBacklightOn then lcdBacklightOn else 0))
  /\ length legacy_init_bytes = 20%nat
  /\ Forall (fun w => Z.land w lcdEnableBit = 0) (firstn 4 legacy_init_bytes).
Proof.
  intros Hh Hf. split; [|split; [reflexivity | repeat constructor]].
  unfold legacy.New, i2c_Open. rewrite Hh.
  pose proof (legacy_init_emits (mkLCD (mkDevice [] 0%nat f) 0 c r 0 0) Hf eq_refl) as E.
  unfold emits in E. rewrite E. cbv zeta. cbn [snd i2c push_bytes set_i2c wire app].
  eexists. split; [reflexivity|]. destruct isBacklightOn; repeat split.
Qed.

Lemma legacy_New_sequence_witness :
  (exists lcd,
     legacy.New healthy_host DefaultDevice DefaultAddress 99 (-3) true
     = (Ok lcd, EvOpen DefaultDevice DefaultAddress :: map EvWrite legacy_init_bytes)
     /\ cols lcd = 99 /\ rows lcd = -3
     /\ backlight lcd = lcdBacklightOn)
  /\ length legacy_init_bytes = 20%nat
  /\ Forall (fun w => Z.land w lcdEnableBit = 0) (firstn 4 legacy_init_bytes).
Proof.
  apply (legacy_New_sequence healthy_host DefaultDevice DefaultAddress 99 (-3) true
           (fun _ => false)).
  - reflexivity.
  - reflexivity.
Defined.

(** X17: the earlier [SetCursor] lets through what the current one
    rejects.  On a display of 1 to 20 columns and a row in 0..3, a column
    equal to the column count is accepted and addressed, and so is a
    negative column down to -128: the command sent is the row's base
    address plus the column, below that base, and on row 0 it is below
    0x80, so it is no longer a set-DDRAM-address command.  Only a column
    above the column count is refused. *)
Theorem legacy_SetCursor_columns (lcd : LCD) (row col : Z) :
  Healthy (i2c lcd) -> valid_backlight (backlight lcd) ->
  0 < cols lcd <= 20 -> 0 <= row <= 3 ->
  let bl := backlight lcd in
  legacy.SetCursor row (cols lcd) lcd
  = (Ok tt, push_bytes (frame bl lcdRegisterCommand (base_address row + cols lcd)) lcd)
  /\ SetCursor row (cols lcd) lcd = (Err (ErrInvalidCol (cols lcd)), lcd)
  /\ (-128 <= col < 0 ->
      legacy.SetCursor row col lcd
      = (Ok tt, push_bytes (frame bl lcdRegisterCommand (base_address row + col)) lcd)
      /\ 0 <= base_address row + col < base_address row
      /\ (row = 0 -> base_address row + col < 0x80)
      /\ SetCursor row col lcd = (Err (ErrInvalidCol col), lcd))
  /\ (cols lcd < col ->
      legacy.SetCursor row col lcd = (Err (ErrInvalidCol col), lcd)).
Proof.
  intros Hh Hbl Hw Hr bl.
  assert (Hrow : row = 0 \/ row = 1 \/ row = 2 \/ row = 3) by lia.
  assert (S : forall c, -128 <= c <= 20 -> c <= cols lcd ->
            legacy.SetCursor row c lcd
            = (Ok tt, push_bytes (frame bl lcdRegisterCommand (base_address row + c)) lcd)).
  { intros c Hc Hle. unfold legacy.SetCursor.
    destruct (Z.gtb_spec c (cols lcd)); [lia|].
    assert (E : forall b, 128 <= b < 216 -> add8 b (to_byte c) = b + c).
    { intros b Hb0. unfold add8, to_byte.
      destruct (Z_lt_dec c 0) as [Hn | Hn].
      - replace (c mod 256) with (c + 256).
        + replace (b + (c + 256)) with (b + c + 1 * 256) by lia.
          rewrite Z.mod_add by lia. apply Z.mod_small. lia.
        + symmetry. replace c with (c + 256 + (-1) * 256) at 1 by lia.
          rewrite Z.mod_add by lia. apply Z.mod_small. lia.
      - rewrite (Z.mod_small c) by lia. apply Z.mod_small. lia. }
    assert (Hbyte : is_byte (base_address row + c)).
    { unfold is_byte. destruct Hrow as [-> | [-> | [-> | ->]]]; cbn [base_address]; lia. }
    destruct Hrow as [-> | [-> | [-> | ->]]]; cbv zeta iota beta;
      unfold sendCommand; rewrite E by (vm_compute; split; congruence);
      (rewrite <- send_bytes_frame by (assumption || now left));
      now apply send_emits. }
  split; [apply S; lia|]. split; [apply SetCursor_bad_col; lia|]. split.
  - intros Hc. split; [apply S; lia|]. split.
    + destruct Hrow as [-> | [-> | [-> | ->]]]; cbn [base_address]; lia.
    + split; [intros ->; cbn [base_address]; lia | apply SetCursor_bad_col; lia].
  - intros Hc. unfold legacy.SetCursor.
    destruct (Z.gtb_spec col (cols lcd)); [reflexivity | lia].
Qed.

Lemma legacy_SetCursor_columns_witness :
  legacy.SetCursor 0 16 sample_lcd
  = (Ok tt, push_bytes [0x9C; 0x98; 0x0C; 0x08] sample_lcd)
  /\ SetCursor 0 16 sample_lcd = (Err (ErrInvalidCol 16), sample_lcd).
Proof.
  pose proof (legacy_SetCursor_columns sample_lcd 0 0) as H. cbv zeta in H.
  refine ((fun P => conj (proj1 P) (proj1 (proj2 P))) (H _ _ _ _)).
  - intro n; reflexivity.
  - right; reflexivity.
  - simpl; lia.
  - lia.
Defined.
